(** * Calendar-assistant frontend: capture and exchange protocol

    A shallow embedding of the request/response logic of
    [src/components/agent.tsx] (both revisions of the [AgentAudio]
    component) and [src/components/only-for-test.tsx] ([AgentImproved]).

    Conventions of the embedding.
    - A JavaScript string is a Rocq [string]; code units are therefore
      restricted to the range 0..255.  A "binary string" as produced by
      [atob] is exactly such a string.
    - A byte buffer ([Uint8Array], the contents of a [Blob]) is a
      [list byte].
    - Values obtained from [res.json()] are elements of [json]; a
      number is carried by the text JavaScript prints for it.
    - An [async] handler is run to completion; what the platform answers
      at each [await] (permission state, device stream, network reply) is
      an explicit argument of the handler.
    - React state, refs and the observable platform effects (toasts,
      requests, device calls, object URLs) are fields of one state record
      that the handlers thread through a state-and-exception monad. *)

From Stdlib Require Import ZArith NArith List String Ascii Bool Lia ZifyN.
From Stdlib Require Import Init.Byte Strings.Byte.
From Stdlib Require Import DecimalString.
Import ListNotations.

Local Open Scope list_scope.
Local Open Scope string_scope.

(* ------------------------------------------------------------------ *)
(** * Strings *)

Module Str.

(** [s.includes(c)] for a one-character needle. *)
Fixpoint includes_char (c : ascii) (s : string) : bool :=
  match s with
  | EmptyString => false
  | String a s' => if Ascii.eqb a c then true else includes_char c s'
  end.

(** [s.split(c)] for a one-character separator.  The result is never
    empty: a string without the separator yields itself. *)
Fixpoint split_char (c : ascii) (s : string) : list string :=
  match s with
  | EmptyString => [EmptyString]
  | String a s' =>
      if Ascii.eqb a c then EmptyString :: split_char c s'
      else match split_char c s' with
           | h :: t => String a h :: t
           | [] => [String a EmptyString]
           end
  end.

(** [s.includes(needle)] for a string needle. *)
Fixpoint includes (needle s : string) : bool :=
  if String.prefix needle s then true
  else match s with
       | EmptyString => false
       | String _ s' => includes needle s'
       end.

(** White space in the sense of [String.prototype.trim], restricted to
    the code units the embedding has: TAB, LF, VT, FF, CR, SPACE and
    NBSP. *)
Definition is_js_whitespace (c : ascii) : bool :=
  let n := N_of_ascii c in
  ((9 <=? n) && (n <=? 13) || (n =? 32) || (n =? 160))%N.

Fixpoint trim_start (s : string) : string :=
  match s with
  | EmptyString => EmptyString
  | String a s' => if is_js_whitespace a then trim_start s' else s
  end.

Definition rev (s : string) : string :=
  string_of_list_ascii (List.rev (list_ascii_of_string s)).

Definition trim_end (s : string) : string := rev (trim_start (rev s)).

(** [s.trim()] *)
Definition trim (s : string) : string := trim_end (trim_start s).

(** A string made of white space only (possibly empty). *)
Fixpoint blank (s : string) : bool :=
  match s with
  | EmptyString => true
  | String a s' => is_js_whitespace a && blank s'
  end.

(** Truthiness of a string: non-empty. *)
Definition truthy (s : string) : bool :=
  match s with EmptyString => false | String _ _ => true end.

(** [a || b] on strings. *)
Definition or_else (a b : string) : string := if truthy a then a else b.

Definition of_Z (z : Z) : string := NilZero.string_of_int (Z.to_int z).

Definition of_N (n : N) : string := of_Z (Z.of_N n).

End Str.

(* ------------------------------------------------------------------ *)
(** * Base64 as the platform implements it

    [atob] follows the "forgiving-base64 decode" algorithm of the WHATWG
    Infra standard, [btoa] the "forgiving-base64 encode" (RFC 4648 with
    padding).  Neither is code of the repository; [base64ToBlob] calls
    [atob], and the backend produces what [btoa] produces. *)

Module Base64.

Definition alphabet : string :=
  "ABCDEFGHIJKLMNOPQRSTUVWXYZabcdefghijklmnopqrstuvwxyz0123456789+/".

Definition pad : ascii := "="%char.

(** The character of a six-bit value. *)
Definition sextet_char (n : N) : ascii :=
  match String.get (N.to_nat n) alphabet with
  | Some c => c
  | None => pad
  end.

(** The six-bit value of a character of the alphabet. *)
Definition char_sextet (c : ascii) : option N :=
  let n := N_of_ascii c in
  (if (65 <=? n) && (n <=? 90) then Some (n - 65)
   else if (97 <=? n) && (n <=? 122) then Some (n - 71)
   else if (48 <=? n) && (n <=? 57) then Some (n + 4)
   else if n =? 43 then Some 62
   else if n =? 47 then Some 63
   else None)%N.

(** ** Encoding *)

(** Three bytes make four sextets; a tail of one or two bytes is
    completed with zero bits and padded with [=]. *)
Fixpoint encode (bs : list ascii) : list ascii :=
  match bs with
  | [] => []
  | [a] =>
      let x := N_of_ascii a in
      [sextet_char (x / 4); sextet_char ((x mod 4) * 16); pad; pad]%N
  | [a; b] =>
      let x := N_of_ascii a in
      let y := N_of_ascii b in
      [sextet_char (x / 4);
       sextet_char ((x mod 4) * 16 + y / 16);
       sextet_char ((y mod 16) * 4); pad]%N
  | a :: b :: c :: rest =>
      let x := N_of_ascii a in
      let y := N_of_ascii b in
      let z := N_of_ascii c in
      (sextet_char (x / 4)
       :: sextet_char ((x mod 4) * 16 + y / 16)
       :: sextet_char ((y mod 16) * 4 + z / 64)
       :: sextet_char (z mod 64)
       :: encode rest)%N
  end.

(** [btoa(binary)] *)
Definition btoa (binary : string) : string :=
  string_of_list_ascii (encode (list_ascii_of_string binary)).

(** The base64 text of a byte buffer. *)
Definition encode_bytes (buf : list byte) : string :=
  btoa (string_of_list_byte buf).

(** ** Decoding *)

(** ASCII white space of the Infra standard: TAB, LF, FF, CR, SPACE. *)
Definition is_ascii_whitespace (c : ascii) : bool :=
  let n := N_of_ascii c in
  ((n =? 9) || (n =? 10) || (n =? 12) || (n =? 13) || (n =? 32))%N.

(** Removes one or two trailing [=]. *)
Definition strip_padding (d : list ascii) : list ascii :=
  match List.rev d with
  | p :: q :: r =>
      if Ascii.eqb p pad
      then if Ascii.eqb q pad then List.rev r else List.rev (q :: r)
      else d
  | [p] => if Ascii.eqb p pad then [] else d
  | [] => d
  end.

(** The sextets of a run of alphabet characters; [None] as soon as one
    character is outside the alphabet. *)
Fixpoint sextets (d : list ascii) : option (list N) :=
  match d with
  | [] => Some []
  | c :: d' =>
      match char_sextet c, sextets d' with
      | Some n, Some ns => Some (n :: ns)
      | _, _ => None
      end
  end.

(** The bit buffer of the decoder: [buffer] holds [bits] bits.  Every
    24 bits leave as three bytes; 12 or 18 left-over bits leave as one
    or two bytes, the last four or two bits being dropped. *)
Fixpoint decode_loop (ss : list N) (buffer bits : N) : list ascii :=
  match ss with
  | [] =>
      (if bits =? 12 then [ascii_of_N (buffer / 16)]
       else if bits =? 18
            then [ascii_of_N (buffer / 4 / 256); ascii_of_N ((buffer / 4) mod 256)]
            else [])%N
  | s :: ss' =>
      let buffer' := (buffer * 64 + s)%N in
      if (bits =? 18)%N
      then ascii_of_N (buffer' / 65536)
           :: ascii_of_N ((buffer' / 256) mod 256)
           :: ascii_of_N (buffer' mod 256)
           :: decode_loop ss' 0 0
      else decode_loop ss' buffer' (bits + 6)
  end.

Definition decode (data : list ascii) : option (list ascii) :=
  let d1 := List.filter (fun c => negb (is_ascii_whitespace c)) data in
  let d2 := if (N.of_nat (List.length d1) mod 4 =? 0)%N
            then strip_padding d1 else d1 in
  if (N.of_nat (List.length d2) mod 4 =? 1)%N then None
  else match sextets d2 with
       | None => None
       | Some ss => Some (decode_loop ss 0 0)
       end.

(** [atob(data)]; [None] stands for the [InvalidCharacterError] the
    platform throws. *)
Definition atob (data : string) : option string :=
  option_map string_of_list_ascii (decode (list_ascii_of_string data)).

End Base64.

(* ------------------------------------------------------------------ *)
(** * JSON values and the JavaScript operations applied to them *)

#[local] Set Warnings "-register-all".

(** A JSON number is a double.  The handlers only test a number for
    truth and turn it into text, so [JNum] carries the text that
    [Number::toString] gives for the number, such as 42, 1.5, -0.25 or
    1e+21; a zero of either sign has the text 0. *)
Inductive json : Type :=
| JNull
| JBool (b : bool)
| JNum (text : string)
| JStr (s : string)
| JArr (items : list json)
| JObj (fields : list (string * json)).

Module Json.

(** A JavaScript value read from a reply: [None] is [undefined]. *)
Definition jsval : Type := option json.

Definition undefined : jsval := None.

(** Own-property lookup in the fields of an object, which are listed
    in property order with distinct keys. *)
Fixpoint lookup (k : string) (fields : list (string * json)) : jsval :=
  match fields with
  | [] => None
  | (k', v) :: rest => if String.eqb k' k then Some v else lookup k rest
  end.

(** Truthiness. *)
Definition truthy (v : json) : bool :=
  match v with
  | JNull => false
  | JBool b => b
  | JNum text => negb (String.eqb text "0")
  | JStr s => Str.truthy s
  | JArr _ | JObj _ => true
  end.

Definition truthy_val (v : jsval) : bool :=
  match v with Some j => truthy j | None => false end.

(** What [??] lets through: a value that is neither [undefined] nor
    [null]. *)
Definition non_nullish (v : jsval) : option json :=
  match v with
  | Some JNull | None => None
  | Some j => Some j
  end.

Definition join (sep : string) (parts : list string) : string :=
  String.concat sep parts.

(** [String(v)] *)
Fixpoint to_string (v : json) : string :=
  match v with
  | JNull => "null"
  | JBool true => "true"
  | JBool false => "false"
  | JNum text => text
  | JStr s => s
  | JArr items =>
      join "," (List.map (fun x => match x with
                                   | JNull => EmptyString
                                   | _ => to_string x
                                   end) items)
  | JObj _ => "[object Object]"
  end.

Definition hex_digit (n : N) : ascii :=
  match String.get (N.to_nat n) "0123456789abcdef" with
  | Some c => c
  | None => "0"%char
  end.

(** The double quote, code unit 34. *)
Definition dquote : string := String (ascii_of_N 34) EmptyString.

(** One code unit inside a JSON string literal. *)
Definition quote_char (c : ascii) : string :=
  let n := N_of_ascii c in
  (if n =? 34 then "\" ++ dquote
   else if n =? 92 then "\\"
   else if n =? 8 then "\b"
   else if n =? 9 then "\t"
   else if n =? 10 then "\n"
   else if n =? 12 then "\f"
   else if n =? 13 then "\r"
   else if n <? 32
        then "\u00" ++ String (hex_digit (n / 16)) (String (hex_digit (n mod 16)) EmptyString)
        else String c EmptyString)%N.

Fixpoint quote_body (s : string) : string :=
  match s with
  | EmptyString => EmptyString
  | String c s' => quote_char c ++ quote_body s'
  end.

(** [QuoteJSONString] *)
Definition quote (s : string) : string := dquote ++ quote_body s ++ dquote.

Definition newline : string := String (ascii_of_N 10) EmptyString.

(** [SerializeJSONProperty] with the given [gap], at indentation
    [indent].  With an empty gap the output is compact. *)
Fixpoint serialize (gap indent : string) (v : json) : string :=
  match v with
  | JNull => "null"
  | JBool true => "true"
  | JBool false => "false"
  | JNum text => text
  | JStr s => quote s
  | JArr items =>
      let inner := indent ++ gap in
      match List.map (serialize gap inner) items with
      | [] => "[]"
      | partial =>
          if Str.truthy gap
          then "[" ++ newline ++ inner
               ++ join ("," ++ newline ++ inner) partial
               ++ newline ++ indent ++ "]"
          else "[" ++ join "," partial ++ "]"
      end
  | JObj fields =>
      let inner := indent ++ gap in
      let colon := if Str.truthy gap then ": " else ":" in
      match List.map (fun kv => quote (fst kv) ++ colon
                                ++ serialize gap inner (snd kv)) fields with
      | [] => "{}"
      | partial =>
          if Str.truthy gap
          then "{" ++ newline ++ inner
               ++ join ("," ++ newline ++ inner) partial
               ++ newline ++ indent ++ "}"
          else "{" ++ join "," partial ++ "}"
      end
  end.

(** [JSON.stringify(v)] *)
Definition stringify (v : json) : string := serialize EmptyString EmptyString v.

(** [JSON.stringify(v, null, 2)] *)
Definition stringify_pretty (v : json) : string := serialize "  " EmptyString v.

End Json.

(* ------------------------------------------------------------------ *)
(** * Platform objects, exceptions and effects *)

(** A [Blob]: its bytes and its [type]. *)
Record Blob : Type := { blob_bytes : list byte; blob_type : string }.

Module Blobs.

(** [blob.size] *)
Definition size (b : Blob) : N := N.of_nat (List.length (blob_bytes b)).

Definition lower (c : ascii) : ascii :=
  let n := N_of_ascii c in
  if ((65 <=? n) && (n <=? 90))%N then ascii_of_N (n + 32) else c.

Definition printable (c : ascii) : bool :=
  let n := N_of_ascii c in ((32 <=? n) && (n <=? 126))%N.

(** The [type] option of the [Blob] constructor: lower-cased, and
    dropped when it holds a code unit outside U+0020..U+007E. *)
Definition normalize_type (t : string) : string :=
  let cs := list_ascii_of_string t in
  if List.forallb printable cs
  then string_of_list_ascii (List.map lower cs)
  else EmptyString.

(** [new Blob(parts, { type })] where every part is a blob. *)
Definition make (parts : list Blob) (type : string) : Blob :=
  {| blob_bytes := List.concat (List.map blob_bytes parts);
     blob_type := normalize_type type |}.

(** [new Blob([bytes], { type })] for one [Uint8Array]. *)
Definition of_bytes (bytes : list byte) (type : string) : Blob :=
  {| blob_bytes := bytes; blob_type := normalize_type type |}.

End Blobs.

(** A thrown value: every exception the handlers meet is an [Error]
    object, observed through its [name] and [message].  The messages of
    the errors the platform raises are the engine's; fixed texts stand
    for them. *)
Record exn : Type := { exn_name : string; exn_message : string }.

Definition Error (message : string) : exn :=
  {| exn_name := "Error"; exn_message := message |}.

Definition TypeError (message : string) : exn :=
  {| exn_name := "TypeError"; exn_message := message |}.

Definition InvalidCharacterError : exn :=
  {| exn_name := "InvalidCharacterError";
     exn_message := "The string to be decoded is not correctly encoded." |}.

(** The outcome of an operation that may throw, or of a promise that
    may reject. *)
Inductive result (A : Type) : Type :=
| Ok (a : A)
| Throw (e : exn).

Arguments Ok {A} a.
Arguments Throw {A} e.

(** ** State and exceptions *)

Section Monad.

Context {S : Type}.

Definition M (A : Type) : Type := S -> result A * S.

Definition ret {A} (a : A) : M A := fun s => (Ok a, s).

Definition bind {A B} (m : M A) (k : A -> M B) : M B :=
  fun s => match m s with
           | (Ok a, s') => k a s'
           | (Throw e, s') => (Throw e, s')
           end.

Definition throw {A} (e : exn) : M A := fun s => (Throw e, s).

(** A value or a rejection that the platform hands back. *)
Definition lift {A} (r : result A) : M A := fun s => (r, s).

Definition gets {A} (f : S -> A) : M A := fun s => (Ok (f s), s).

Definition modify (f : S -> S) : M unit := fun s => (Ok tt, f s).

(** [try { m } catch (err) { handler err }] *)
Definition try_catch {A} (m : M A) (handler : exn -> M A) : M A :=
  fun s => match m s with
           | (Ok a, s') => (Ok a, s')
           | (Throw e, s') => handler e s'
           end.

(** [try { m } finally { fin }] *)
Definition try_finally {A} (m : M A) (fin : M unit) : M A :=
  fun s => match m s with
           | (r, s') => match fin s' with
                        | (Ok _, s'') => (r, s'')
                        | (Throw e, s'') => (Throw e, s'')
                        end
           end.

(** The state a handler leaves behind. *)
Definition exec {A} (m : M A) (s : S) : S := snd (m s).

(** How it completes. *)
Definition outcome {A} (m : M A) (s : S) : result A := fst (m s).

End Monad.

Arguments M S A : clear implicits.

Declare Scope monad_scope.
Delimit Scope monad_scope with monad.
Notation "x <- m ;; k" := (bind m (fun x => k))
  (at level 61, m at next level, right associativity) : monad_scope.
Notation "m ;; k" := (bind m (fun _ => k))
  (at level 61, right associativity) : monad_scope.
Local Open Scope monad_scope.

(** ** What the handlers do to the outside *)

Inductive toast_kind : Type := ToastPlain | ToastSuccess | ToastError | ToastWarning.

(** One entry of a [FormData]. *)
Record FormPart : Type :=
  { part_name : string; part_blob : Blob; part_filename : string }.

Inductive RequestBody : Type :=
| TextBody (text : string)
| FormBody (parts : list FormPart).

(** The arguments of a [fetch] call. *)
Record Request : Type :=
  { req_url : string;
    req_method : string;
    req_headers : list (string * string);
    req_body : RequestBody }.

Inductive event : Type :=
| EvToast (kind : toast_kind) (message : string)
| EvFetch (req : Request)
| EvGetUserMedia
| EvConsoleError (e : exn)
| EvPreventDefault.

(** The requests of a log, in the order they were issued. *)
Fixpoint fetches (l : list event) : list Request :=
  match l with
  | [] => []
  | EvFetch r :: l' => r :: fetches l'
  | _ :: l' => fetches l'
  end.

(** ** What the platform answers *)

(** A [Response].  [bodyText] is what [res.text()] resolves to,
    [bodyJson] what [res.json()] resolves to or rejects with;
    [contentType] is [res.headers.get("content-type")], [None] for
    [null]. *)
Record Response : Type :=
  { status : Z;
    statusText : string;
    contentType : option string;
    bodyText : string;
    bodyJson : result json }.

(** [res.ok]: the status is in the range 200..299. *)
Definition ok (res : Response) : bool :=
  ((200 <=? status res) && (status res <=? 299))%Z.

Inductive track_state : Type := Live | Ended.

Inductive PermissionState : Type := Granted | Denied | Prompt.

Inductive recording_state : Type := Inactive | Recording.

(** A [MediaRecorder] with the stream it records. *)
Record MediaRecorder : Type :=
  { rec_mimeType : string;
    rec_state : recording_state;
    rec_stream : list track_state }.

(** The browser around [startRecording]. *)
Record Env : Type :=
  { isSecureContext : bool;              (* window.isSecureContext *)
    hostname : string;                   (* location.hostname *)
    hasGetUserMedia : bool;              (* navigator.mediaDevices?.getUserMedia *)
    permissions : option (result PermissionState);
      (* "permissions" in navigator, and what query() settles to *)
    getUserMedia : result (list track_state);
      (* what getUserMedia({ audio: true }) settles to: the tracks of the stream *)
    opusSupported : bool;
      (* MediaRecorder.isTypeSupported("audio/webm;codecs=opus") *)
    recorderConstructor : option exn;    (* new MediaRecorder(...) throws *)
    recorderStart : option exn }.        (* recorder.start() throws *)

(** ** Helpers shared by both revisions of the component *)

Definition BACKEND_URL : string := "http://127.0.0.1:8080/assistant".

Definition isSecureContextOrLocal (env : Env) : bool :=
  isSecureContext env
  || List.existsb (String.eqb (hostname env)) ["localhost"; "127.0.0.1"].

Inductive MicState : Type :=
| Known (p : PermissionState)
| Unsupported.

Definition queryMicPermission (env : Env) : MicState :=
  match permissions env with
  | None => Unsupported
  | Some (Ok p) => Known p
  | Some (Throw _) => Unsupported
  end.

Definition is_denied (m : MicState) : bool :=
  match m with Known Denied => true | _ => false end.

(** [base64ToBlob(base64, mime)] on a string. *)
Definition base64ToBlob (base64 : string) (mime : string) : result Blob :=
  let dataPart :=
    if Str.includes_char ","%char base64
    then match List.nth_error (Str.split_char ","%char base64) 1 with
         | Some p => p
         | None => "undefined"
         end
    else base64 in
  match Base64.atob dataPart with
  | None => Throw InvalidCharacterError
  | Some binary => Ok (Blobs.of_bytes (list_byte_of_string binary) mime)
  end.

Definition is_comma (v : json) : bool :=
  match v with JStr s => String.eqb s "," | _ => false end.

(** The same call when the first argument is whatever the reply held
    under [audio_b64] (the reply is untyped).  Numbers, booleans and
    objects have no [includes]; an array has [includes] but no [split],
    and reaches [atob] as its string form. *)
Definition base64ToBlob_any (base64 : json) (mime : string) : result Blob :=
  match base64 with
  | JStr s => base64ToBlob s mime
  | JArr items =>
      if List.existsb is_comma items
      then Throw (TypeError "base64.split is not a function")
      else match Base64.atob (Json.to_string base64) with
           | None => Throw InvalidCharacterError
           | Some binary => Ok (Blobs.of_bytes (list_byte_of_string binary) mime)
           end
  | _ => Throw (TypeError "base64.includes is not a function")
  end.

(** [data.k]: reading a property of [null] throws. *)
Definition prop (data : json) (k : string) : result Json.jsval :=
  match data with
  | JNull => Throw (TypeError "Cannot read properties of null")
  | JObj fields => Ok (Json.lookup k fields)
  | _ => Ok Json.undefined
  end.

(** [data?.k] *)
Definition prop_opt (data : json) (k : string) : Json.jsval :=
  match data with
  | JObj fields => Json.lookup k fields
  | _ => Json.undefined
  end.

(** [v || fallback] where the result is used as a string. *)
Definition string_or (v : Json.jsval) (fallback : string) : string :=
  match v with
  | Some j => if Json.truthy j then Json.to_string j else fallback
  | None => fallback
  end.

(* ------------------------------------------------------------------ *)
(** * The state of the [AgentAudio] component

    The hooks and refs of the component, followed by what the page has
    done to the outside.  [mode] and [textQuery] exist in the unified
    revision only; the voice-only revision never reads them.
    [audioUrl] is the empty string when no clip is shown. *)

Inductive Mode : Type := Voice | Text.

Record State : Type :=
  { markdown : json;
    audioUrl : string;
    isLoading : bool;
    isRecording : bool;
    mode : Mode;
    textQuery : string;
    mediaRecorderRef : option MediaRecorder;
    chunksRef : list Blob;
    log : list event;
    objectUrls : list (string * Blob);    (* the live object URLs *)
    nextUrl : N }.

Definition setMarkdown (v : json) : M State unit :=
  modify (fun s =>
    {| markdown := v; audioUrl := audioUrl s; isLoading := isLoading s;
       isRecording := isRecording s; mode := mode s; textQuery := textQuery s;
       mediaRecorderRef := mediaRecorderRef s; chunksRef := chunksRef s;
       log := log s; objectUrls := objectUrls s; nextUrl := nextUrl s |}).

Definition setAudioUrl (u : string) : M State unit :=
  modify (fun s =>
    {| markdown := markdown s; audioUrl := u; isLoading := isLoading s;
       isRecording := isRecording s; mode := mode s; textQuery := textQuery s;
       mediaRecorderRef := mediaRecorderRef s; chunksRef := chunksRef s;
       log := log s; objectUrls := objectUrls s; nextUrl := nextUrl s |}).

Definition setLoading (b : bool) : M State unit :=
  modify (fun s =>
    {| markdown := markdown s; audioUrl := audioUrl s; isLoading := b;
       isRecording := isRecording s; mode := mode s; textQuery := textQuery s;
       mediaRecorderRef := mediaRecorderRef s; chunksRef := chunksRef s;
       log := log s; objectUrls := objectUrls s; nextUrl := nextUrl s |}).

Definition setRecording (b : bool) : M State unit :=
  modify (fun s =>
    {| markdown := markdown s; audioUrl := audioUrl s; isLoading := isLoading s;
       isRecording := b; mode := mode s; textQuery := textQuery s;
       mediaRecorderRef := mediaRecorderRef s; chunksRef := chunksRef s;
       log := log s; objectUrls := objectUrls s; nextUrl := nextUrl s |}).

Definition set_mediaRecorderRef (r : option MediaRecorder) : M State unit :=
  modify (fun s =>
    {| markdown := markdown s; audioUrl := audioUrl s; isLoading := isLoading s;
       isRecording := isRecording s; mode := mode s; textQuery := textQuery s;
       mediaRecorderRef := r; chunksRef := chunksRef s;
       log := log s; objectUrls := objectUrls s; nextUrl := nextUrl s |}).

Definition set_chunksRef (c : list Blob) : M State unit :=
  modify (fun s =>
    {| markdown := markdown s; audioUrl := audioUrl s; isLoading := isLoading s;
       isRecording := isRecording s; mode := mode s; textQuery := textQuery s;
       mediaRecorderRef := mediaRecorderRef s; chunksRef := c;
       log := log s; objectUrls := objectUrls s; nextUrl := nextUrl s |}).

Definition emit (e : event) : M State unit :=
  modify (fun s =>
    {| markdown := markdown s; audioUrl := audioUrl s; isLoading := isLoading s;
       isRecording := isRecording s; mode := mode s; textQuery := textQuery s;
       mediaRecorderRef := mediaRecorderRef s; chunksRef := chunksRef s;
       log := (log s ++ [e])%list; objectUrls := objectUrls s;
       nextUrl := nextUrl s |}).

Definition toast (kind : toast_kind) (message : string) : M State unit :=
  emit (EvToast kind message).

Definition remove_url (u : string) (l : list (string * Blob)) : list (string * Blob) :=
  List.filter (fun p => negb (String.eqb (fst p) u)) l.

Fixpoint find_url (u : string) (l : list (string * Blob)) : option Blob :=
  match l with
  | [] => None
  | (u', b) :: l' => if String.eqb u' u then Some b else find_url u l'
  end.

(** [URL.revokeObjectURL(u)] *)
Definition revokeObjectURL (u : string) : M State unit :=
  modify (fun s =>
    {| markdown := markdown s; audioUrl := audioUrl s; isLoading := isLoading s;
       isRecording := isRecording s; mode := mode s; textQuery := textQuery s;
       mediaRecorderRef := mediaRecorderRef s; chunksRef := chunksRef s;
       log := log s; objectUrls := remove_url u (objectUrls s);
       nextUrl := nextUrl s |}).

(** The URL that [createObjectURL] hands out when [n] URLs were made. *)
Definition url_of (n : N) : string := "blob:" ++ Str.of_N n.

(** [URL.createObjectURL(blob)]: a URL not handed out before. *)
Definition createObjectURL (b : Blob) : M State string :=
  fun s =>
    let u := url_of (nextUrl s) in
    (Ok u,
     {| markdown := markdown s; audioUrl := audioUrl s; isLoading := isLoading s;
        isRecording := isRecording s; mode := mode s; textQuery := textQuery s;
        mediaRecorderRef := mediaRecorderRef s; chunksRef := chunksRef s;
        log := log s; objectUrls := ((u, b) :: objectUrls s)%list;
        nextUrl := (nextUrl s + 1)%N |}).

(** The clip the page shows, if any. *)
Definition displayed_audio (s : State) : option Blob :=
  if Str.truthy (audioUrl s) then find_url (audioUrl s) (objectUrls s) else None.

(** [if (c) m] *)
Definition when (c : bool) (m : M State unit) : M State unit :=
  if c then m else ret tt.

(** [stream.getTracks().forEach(t => t.stop())] on the recorder's stream. *)
Definition stop_tracks (r : MediaRecorder) : MediaRecorder :=
  {| rec_mimeType := rec_mimeType r; rec_state := rec_state r;
     rec_stream := List.map (fun _ => Ended) (rec_stream r) |}.

Definition with_state (st : recording_state) (r : MediaRecorder) : MediaRecorder :=
  {| rec_mimeType := rec_mimeType r; rec_state := st;
     rec_stream := rec_stream r |}.

Definition release_stream : M State unit :=
  r <- gets mediaRecorderRef ;;
  set_mediaRecorderRef (option_map stop_tracks r).

(** [recorder.ondataavailable]: both revisions keep a chunk only when it
    is not empty. *)
Definition ondataavailable (data : Blob) : M State unit :=
  if (Blobs.size data =? 0)%N then ret tt
  else (c <- gets chunksRef ;; set_chunksRef (c ++ [data])%list).

(** [new FormData(); fd.append("audio", blob, "recording.webm")] *)
Definition audio_form (blob : Blob) : RequestBody :=
  FormBody [ {| part_name := "audio"; part_blob := blob;
                part_filename := "recording.webm" |} ].

Definition audio_request (blob : Blob) : Request :=
  {| req_url := BACKEND_URL; req_method := "POST"; req_headers := [];
     req_body := audio_form blob |}.

(** The part of [startRecording] from [getUserMedia] to [setRecording],
    the same in both revisions: the body of its [try]. *)
Definition open_recorder (env : Env) : M State unit :=
  emit EvGetUserMedia ;;
  stream <- lift (getUserMedia env) ;;
  let mimeType := if opusSupported env
                  then "audio/webm;codecs=opus" else "audio/webm" in
  recorder <- lift (match recorderConstructor env with
                    | Some e => Throw e
                    | None => Ok {| rec_mimeType := mimeType;
                                    rec_state := Inactive;
                                    rec_stream := stream |}
                    end) ;;
  set_mediaRecorderRef (Some recorder) ;;
  set_chunksRef [] ;;
  lift (match recorderStart env with
        | Some e => Throw e
        | None => Ok tt
        end) ;;
  set_mediaRecorderRef (Some (with_state Recording recorder)) ;;
  setRecording true.

(* ------------------------------------------------------------------ *)
(** * [agent.tsx]: the voice-only component *)

Module AgentAudio.

(** [sendAudio] up to its first [await]: the request has left. *)
Definition sendAudio_begin (blob : Blob) : M State unit :=
  setLoading true ;;
  old <- gets audioUrl ;;
  when (Str.truthy old) (revokeObjectURL old) ;;
  setAudioUrl EmptyString ;;
  emit (EvFetch (audio_request blob)).

(** The rest of the [try] block once [fetch] has settled as [net]. *)
Definition sendAudio_try (net : result Response) : M State unit :=
  res <- lift net ;;
  data <- lift (bodyJson res) ;;
  if negb (ok res)
  then throw (Error (string_or (prop_opt data "error") (statusText res)))
  else
    text <- lift (prop data "text") ;;
    when (Json.truthy_val text)
         (setMarkdown (match text with Some t => t | None => JNull end)) ;;
    audio_b64 <- lift (prop data "audio_b64") ;;
    match audio_b64 with
    | Some a =>
        if Json.truthy a
        then
          mime_v <- lift (prop data "mime") ;;
          let mime := string_or mime_v "audio/mpeg" in
          blobMp3 <- lift (base64ToBlob_any a mime) ;;
          u <- createObjectURL blobMp3 ;;
          setAudioUrl u
        else ret tt
    | None => ret tt
    end ;;
    toast ToastSuccess "Response ready".

Definition sendAudio_settle (net : result Response) : M State unit :=
  try_finally
    (try_catch (sendAudio_try net)
       (fun err => toast ToastError
                     (Str.or_else (exn_message err) "Request failed")))
    (setLoading false).

Definition sendAudio (blob : Blob) (net : result Response) : M State unit :=
  sendAudio_begin blob ;; sendAudio_settle net.

(** [recorder.onstop].  [sendAudio] is not awaited: the tracks are
    stopped once the request has left, before the reply is handled. *)
Definition onstop (recorder : MediaRecorder) (net : result Response)
  : M State unit :=
  chunks <- gets chunksRef ;;
  let blob := Blobs.make chunks (rec_mimeType recorder) in
  if (Blobs.size blob =? 0)%N
  then toast ToastError "Recording empty."
  else
    sendAudio_begin blob ;;
    release_stream ;;
    sendAudio_settle net.

Definition startRecording (env : Env) : M State unit :=
  if negb (isSecureContextOrLocal env)
  then toast ToastError "Insecure context."
  else if negb (hasGetUserMedia env)
  then toast ToastError "getUserMedia not supported."
  else
    let micState := queryMicPermission env in
    if is_denied micState
    then toast ToastError "Mic permission denied."
    else
      try_catch
        (open_recorder env ;;
         toast ToastSuccess "Recording…")
        (fun err => toast ToastError
                      (Str.or_else (exn_message err) "Recording failed.")).

(** [stopRecording], followed by the two events that [stop()] puts in
    the queue of a recorder that is recording: [dataavailable] with the
    recorded [data], then [stop]. *)
Definition stopRecording (data : Blob) (net : result Response)
  : M State unit :=
  r <- gets mediaRecorderRef ;;
  match r with
  | Some recorder =>
      match rec_state recorder with
      | Recording =>
          set_mediaRecorderRef (Some (with_state Inactive recorder)) ;;
          setRecording false ;;
          ondataavailable data ;;
          onstop recorder net
      | Inactive => setRecording false
      end
  | None => setRecording false
  end.

End AgentAudio.

(* ------------------------------------------------------------------ *)
(** * The unified voice and text component (second part of [agent.tsx]) *)

Module AgentUnified.

(** [handleBackendJson(data)].  The updater passed to [setAudioUrl]
    runs on the state of that moment. *)
Definition handleBackendJson (data : json) : M State unit :=
  text <- lift (prop data "text") ;;
  when (Json.truthy_val text)
       (setMarkdown (match text with Some t => t | None => JNull end)) ;;
  audio_b64 <- lift (prop data "audio_b64") ;;
  match audio_b64 with
  | Some a =>
      if Json.truthy a
      then
        mime_v <- lift (prop data "mime") ;;
        let mime := string_or mime_v "audio/mpeg" in
        blob <- lift (base64ToBlob_any a mime) ;;
        old <- gets audioUrl ;;
        when (Str.truthy old) (revokeObjectURL old) ;;
        u <- createObjectURL blob ;;
        setAudioUrl u
      else ret tt
  | None => ret tt
  end.

(** What follows [await fetch(...)] inside the [try] of [sendAudio] and
    of [sendText], [fetch] having settled as [net]. *)
Definition exchange_try (net : result Response) : M State unit :=
  res <- lift net ;;
  data <- lift (bodyJson res) ;;
  if negb (ok res)
  then throw (Error (string_or (prop_opt data "error") (statusText res)))
  else handleBackendJson data.

Definition exchange_settle (net : result Response) : M State unit :=
  try_finally
    (try_catch (exchange_try net)
       (fun err => toast ToastError
                     (Str.or_else (exn_message err) "Request failed")))
    (setLoading false).

(** [sendAudio] up to its first [await]. *)
Definition sendAudio_begin (blob : Blob) : M State unit :=
  setLoading true ;;
  setAudioUrl EmptyString ;;
  emit (EvFetch (audio_request blob)).

Definition sendAudio (blob : Blob) (net : result Response) : M State unit :=
  sendAudio_begin blob ;; exchange_settle net.

Definition text_request (query : string) : Request :=
  {| req_url := BACKEND_URL;
     req_method := "POST";
     req_headers := [("Content-Type", "application/json")];
     req_body := TextBody (Json.stringify (JObj [("query", JStr query)])) |}.

Definition sendText (net : result Response) : M State unit :=
  q <- gets textQuery ;;
  if negb (Str.truthy (Str.trim q))
  then toast ToastError "Please enter a request."
  else
    setLoading true ;;
    setAudioUrl EmptyString ;;
    emit (EvFetch (text_request q)) ;;
    exchange_settle net.

Definition onstop (recorder : MediaRecorder) (net : result Response)
  : M State unit :=
  chunks <- gets chunksRef ;;
  let blob := Blobs.make chunks (rec_mimeType recorder) in
  if (Blobs.size blob =? 0)%N
  then toast ToastError "Empty recording, try again."
  else
    sendAudio_begin blob ;;
    release_stream ;;
    exchange_settle net.

Definition startRecording (env : Env) : M State unit :=
  if negb (hasGetUserMedia env)
  then toast ToastError "getUserMedia not supported in this browser."
  else
    let micState := queryMicPermission env in
    if is_denied micState
    then toast ToastError "Microphone permission denied."
    else
      try_catch
        (open_recorder env ;;
         toast ToastPlain "Recording…")
        (fun err => toast ToastError
                      (Str.or_else (exn_message err) "Cannot start recording.")).

Definition stopRecording (data : Blob) (net : result Response)
  : M State unit :=
  r <- gets mediaRecorderRef ;;
  match r with
  | Some recorder =>
      match rec_state recorder with
      | Recording =>
          set_mediaRecorderRef (Some (with_state Inactive recorder)) ;;
          setRecording false ;;
          ondataavailable data ;;
          onstop recorder net
      | Inactive => setRecording false
      end
  | None => setRecording false
  end.

End AgentUnified.

(* ------------------------------------------------------------------ *)
(** * [only-for-test.tsx]: the text-only component *)

Module AgentImproved.

Record State : Type :=
  { input : string;
    markdown : json;
    isLoading : bool;
    log : list event }.

Definition setMarkdown (v : json) : M State unit :=
  modify (fun s => {| input := input s; markdown := v;
                      isLoading := isLoading s; log := log s |}).

Definition setLoading (b : bool) : M State unit :=
  modify (fun s => {| input := input s; markdown := markdown s;
                      isLoading := b; log := log s |}).

Definition emit (e : event) : M State unit :=
  modify (fun s => {| input := input s; markdown := markdown s;
                      isLoading := isLoading s; log := (log s ++ [e])%list |}).

Definition toast (kind : toast_kind) (message : string) : M State unit :=
  emit (EvToast kind message).

Definition events_request (query : string) : Request :=
  {| req_url := "http://127.0.0.1:8080/assistant";
     req_method := "POST";
     req_headers := [("Content-Type", "application/json")];
     req_body := TextBody (Json.stringify (JObj [("query", JStr query)])) |}.

(** [data.result ?? data.output ?? data.message ??
     JSON.stringify(data, null, 2)] *)
Definition resolve_text (data : json) : result json :=
  match prop data "result" with
  | Throw e => Throw e
  | Ok r =>
      match Json.non_nullish r with
      | Some v => Ok v
      | None =>
          match Json.non_nullish (prop_opt data "output") with
          | Some v => Ok v
          | None =>
              match Json.non_nullish (prop_opt data "message") with
              | Some v => Ok v
              | None => Ok (JStr (Json.stringify_pretty data))
              end
          end
      end
  end.

(** The [try] block of [fetchEvents], [fetch] settling as [net]. *)
Definition fetchEvents_try (net : result Response) : M State unit :=
  q <- gets input ;;
  emit (EvFetch (events_request q)) ;;
  res <- lift net ;;
  let contentType := match contentType res with
                     | Some c => c
                     | None => EmptyString
                     end in
  text <- (if Str.includes "application/json" contentType
           then data <- lift (bodyJson res) ;; lift (resolve_text data)
           else ret (JStr (bodyText res))) ;;
  if negb (ok res)
  then throw (Error (if Json.truthy text then Json.to_string text
                     else "HTTP " ++ Str.of_Z (status res)))
  else
    setMarkdown text ;;
    toast ToastSuccess "Calendar events retrieved successfully".

Definition fetchEvents (net : result Response) : M State unit :=
  setLoading true ;;
  setMarkdown (JStr EmptyString) ;;
  try_finally
    (try_catch (fetchEvents_try net)
       (fun err =>
          emit (EvConsoleError err) ;;
          toast ToastError
            (Str.or_else (exn_message err) "Failed to fetch events")))
    (setLoading false).

Definition handleSubmit (net : result Response) : M State unit :=
  emit EvPreventDefault ;;
  q <- gets input ;;
  if negb (Str.truthy (Str.trim q))
  then toast ToastError "Please enter a request"
  else fetchEvents net.

End AgentImproved.

(* ------------------------------------------------------------------ *)
(** * Definitions used to state and prove the properties *)

Module Base64Defs.

Import Base64.

Definition comma : ascii := ","%char.

(** What the decoder needs of the character of a sextet. *)
Definition sextet_ok (n : N) : bool :=
  match char_sextet (sextet_char n) with
  | Some m => (m =? n)%N
  | None => false
  end
  && negb (Ascii.eqb (sextet_char n) pad)
  && negb (is_ascii_whitespace (sextet_char n))
  && negb (Ascii.eqb (sextet_char n) comma).

(** The sextets the encoder writes, and the padding it adds. *)
Fixpoint enc_sextets (bs : list ascii) : list N :=
  match bs with
  | [] => []
  | [a] =>
      let x := N_of_ascii a in [x / 4; (x mod 4) * 16]%N
  | [a; b] =>
      let x := N_of_ascii a in
      let y := N_of_ascii b in
      [x / 4; (x mod 4) * 16 + y / 16; (y mod 16) * 4]%N
  | a :: b :: c :: rest =>
      let x := N_of_ascii a in
      let y := N_of_ascii b in
      let z := N_of_ascii c in
      (x / 4 :: (x mod 4) * 16 + y / 16 :: (y mod 16) * 4 + z / 64
       :: z mod 64 :: enc_sextets rest)%N
  end.

Fixpoint enc_padding (bs : list ascii) : list ascii :=
  match bs with
  | [] => []
  | [a] => [pad; pad]
  | [a; b] => [pad]
  | a :: b :: c :: rest => enc_padding rest
  end.

End Base64Defs.

(** ** Concrete inputs *)

Definition id3_bytes : list byte := [x49; x44; x33; x04; x00].

Definition clip : Blob :=
  {| blob_bytes := [x1a; x45; xdf; xa3]; blob_type := "audio/webm;codecs=opus" |}.

Definition speech : Blob :=
  {| blob_bytes := id3_bytes; blob_type := "audio/mpeg" |}.

(** The component as it mounts. *)
Definition initial : State :=
  {| markdown := JStr EmptyString; audioUrl := EmptyString;
     isLoading := false; isRecording := false; mode := Voice;
     textQuery := EmptyString; mediaRecorderRef := None; chunksRef := [];
     log := []; objectUrls := []; nextUrl := 0 |}.

(** The component showing an earlier reply, a query typed in. *)
Definition showing_reply : State :=
  {| markdown := JStr "Meeting at 10"; audioUrl := "blob:0";
     isLoading := false; isRecording := false; mode := Text;
     textQuery := "events today"; mediaRecorderRef := None; chunksRef := [];
     log := []; objectUrls := [("blob:0", speech)]; nextUrl := 1 |}.

(** The same with only white space typed in. *)
Definition showing_reply_blank_query : State :=
  {| markdown := JStr "Meeting at 10"; audioUrl := "blob:0";
     isLoading := false; isRecording := false; mode := Text;
     textQuery := "   "; mediaRecorderRef := None; chunksRef := [];
     log := []; objectUrls := [("blob:0", speech)]; nextUrl := 1 |}.

(** A recording in progress on a stream with one live track, nothing
    recorded so far. *)
Definition silent_session : State :=
  {| markdown := JStr EmptyString; audioUrl := EmptyString;
     isLoading := false; isRecording := true; mode := Voice;
     textQuery := EmptyString;
     mediaRecorderRef := Some {| rec_mimeType := "audio/webm;codecs=opus";
                                 rec_state := Recording;
                                 rec_stream := [Live] |};
     chunksRef := [];
     log := [EvGetUserMedia; EvToast ToastSuccess "Recording…"];
     objectUrls := []; nextUrl := 0 |}.

Definition empty_blob : Blob :=
  {| blob_bytes := []; blob_type := "audio/webm;codecs=opus" |}.

(** A page served over plain HTTP from a LAN address, in a browser that
    still exposes [navigator.mediaDevices] there. *)
Definition insecure_env : Env :=
  {| isSecureContext := false; hostname := "192.168.1.20";
     hasGetUserMedia := true; permissions := Some (Ok Prompt);
     getUserMedia := Throw {| exn_name := "NotAllowedError";
                              exn_message := "Permission denied" |};
     opusSupported := true; recorderConstructor := None;
     recorderStart := None |}.

(** A reply whose body is the JSON text of [data]. *)
Definition json_reply (code : Z) (reason : string) (data : json) : Response :=
  {| status := code; statusText := reason;
     contentType := Some "application/json";
     bodyText := Json.stringify data; bodyJson := Ok data |}.

(** An HTTP/2 failure (no reason phrase) with an empty JSON object. *)
Definition reply_500 : Response := json_reply 500 EmptyString (JObj []).

Definition reply_bad_request : Response :=
  json_reply 400 "Bad Request" (JObj [("error", JStr "bad request")]).

(** A success whose audio is not base64. *)
Definition reply_bad_audio : Response :=
  json_reply 200 "OK"
    (JObj [("text", JStr "No events"); ("audio_b64", JStr "%")]).

(** A success that carries audio and no text. *)
Definition reply_audio_only : Response :=
  json_reply 200 "OK" (JObj [("audio_b64", JStr "SUQzBAA=")]).

Definition reply_full : Response :=
  json_reply 200 "OK"
    (JObj [("text", JStr "No events"); ("audio_b64", JStr "SUQzBAA=")]).

Definition improved_initial : AgentImproved.State :=
  {| AgentImproved.input := "Get my Google Calendar events for the next week";
     AgentImproved.markdown := JStr EmptyString;
     AgentImproved.isLoading := false;
     AgentImproved.log := [] |}.

(** The tracks of the recorder the component holds. *)
Definition held_tracks (s : State) : list track_state :=
  match mediaRecorderRef s with
  | Some r => rec_stream r
  | None => []
  end.

(** The total size of the chunks gathered so far. *)
Definition recorded_size (s : State) : N :=
  Blobs.size (Blobs.make (chunksRef s) EmptyString).

(** ** Frames *)

(** [keeps R m]: whatever [m] does, the state it leaves is related by
    [R] to the state it started from. *)
Definition keeps {S A : Type} (R : S -> S -> Prop) (m : M S A) : Prop :=
  forall s, R s (exec m s).

(** What settling a request cannot touch: the recording side of the
    component, the typed query, and the list of requests issued. *)
Definition settle_frame (s s' : State) : Prop :=
  isRecording s' = isRecording s
  /\ mode s' = mode s
  /\ textQuery s' = textQuery s
  /\ mediaRecorderRef s' = mediaRecorderRef s
  /\ chunksRef s' = chunksRef s
  /\ fetches (log s') = fetches (log s).

(** The request of a text query, spelled out. *)
Definition query_request (text : string) : Request :=
  {| req_url := "http://127.0.0.1:8080/assistant";
     req_method := "POST";
     req_headers := [("Content-Type", "application/json")];
     req_body := TextBody (Json.stringify (JObj [("query", JStr text)])) |}.

(** ** Replies *)

(** The reply declares JSON content. *)
Definition declares_json (res : Response) : bool :=
  Str.includes "application/json"
    (match contentType res with Some c => c | None => EmptyString end).


(** The message that the specification announces for a reply with a
    non-success status, in its words: the [error] field of the JSON body
    if present, otherwise the status text, otherwise the raw text. *)
Definition spec_error_message (res : Response) : string :=
  match match bodyJson res with
        | Ok data => prop_opt data "error"
        | Throw _ => None
        end with
  | Some e => Json.to_string e
  | None => if Str.truthy (statusText res) then statusText res else bodyText res
  end.

(** The attempt fails before the reply is looked at: [fetch] rejects,
    the body is not JSON, or the status is not a success. *)
Definition rejected (net : result Response) : bool :=
  match net with
  | Throw _ => true
  | Ok res =>
      match bodyJson res with
      | Throw _ => true
      | Ok _ => negb (ok res)
      end
  end.

(** The attempt succeeds: the [try] block of the handler runs to its
    end. *)
Definition succeeds (net : result Response) : bool :=
  match outcome (AgentUnified.exchange_try net) initial with
  | Ok _ => true
  | Throw _ => false
  end.

(** What a failed attempt leaves of the state it started from. *)
Definition failure_frame (s s' : State) : Prop :=
  markdown s' = markdown s
  /\ audioUrl s' = EmptyString
  /\ displayed_audio s' = None
  /\ isLoading s' = false
  /\ isRecording s' = isRecording s
  /\ mode s' = mode s
  /\ textQuery s' = textQuery s
  /\ mediaRecorderRef s' = mediaRecorderRef s
  /\ chunksRef s' = chunksRef s.

(** The summary shown after a reply [data], [prior] being the one shown
    before. *)
Definition reply_markdown (data : json) (prior : json) : json :=
  match prop_opt data "text" with
  | Some t => if Json.truthy t then t else prior
  | None => prior
  end.

(** The clip carried by a reply [data]. *)
Definition reply_audio (data : json) : option Blob :=
  match prop_opt data "audio_b64" with
  | Some a =>
      if Json.truthy a
      then match base64ToBlob_any a (string_or (prop_opt data "mime") "audio/mpeg") with
           | Ok b => Some b
           | Throw _ => None
           end
      else None
  | None => None
  end.

(* ------------------------------------------------------------------ *)
(** * Definitions for the properties of the remaining code *)

(** How often the device was asked for, in a log. *)
Fixpoint device_requests (l : list event) : nat :=
  match l with
  | [] => 0
  | EvGetUserMedia :: l' => S (device_requests l')
  | _ :: l' => device_requests l'
  end.

(** The toasts of a log, in order. *)
Fixpoint toasts (l : list event) : list (toast_kind * string) :=
  match l with
  | [] => []
  | EvToast k m :: l' => (k, m) :: toasts l'
  | _ :: l' => toasts l'
  end.

(** The bytes gathered so far, chunk after chunk. *)
Definition recorded_bytes (s : State) : list byte :=
  List.concat (List.map blob_bytes (chunksRef s)).

(** The three tests that stand before the device request in the
    voice-only [startRecording], and the two of the unified one. *)
Definition voice_guards (env : Env) : bool :=
  isSecureContextOrLocal env
  && hasGetUserMedia env
  && negb (is_denied (queryMicPermission env)).

Definition unified_guards (env : Env) : bool :=
  hasGetUserMedia env && negb (is_denied (queryMicPermission env)).

(** The recorder that [startRecording] builds on [stream]. *)
Definition new_recorder (env : Env) (stream : list track_state) : MediaRecorder :=
  {| rec_mimeType := if opusSupported env
                     then "audio/webm;codecs=opus" else "audio/webm";
     rec_state := Recording;
     rec_stream := stream |}.

(** A browser in which recording starts. *)
Definition good_env : Env :=
  {| isSecureContext := true; hostname := "app.example.org";
     hasGetUserMedia := true; permissions := Some (Ok Granted);
     getUserMedia := Ok [Live];
     opusSupported := false; recorderConstructor := None;
     recorderStart := None |}.

(** A browser without the Permissions API whose recorder refuses to
    start. *)
Definition stubborn_env : Env :=
  {| isSecureContext := false; hostname := "localhost";
     hasGetUserMedia := true; permissions := None;
     getUserMedia := Ok [Live; Live];
     opusSupported := true; recorderConstructor := None;
     recorderStart := Some {| exn_name := "NotSupportedError";
                              exn_message := EmptyString |} |}.

(** A recording in progress with one chunk gathered. *)
Definition running_session : State :=
  {| markdown := JStr "Meeting at 10"; audioUrl := "blob:0";
     isLoading := false; isRecording := true; mode := Voice;
     textQuery := EmptyString;
     mediaRecorderRef := Some {| rec_mimeType := "audio/webm";
                                 rec_state := Recording;
                                 rec_stream := [Live] |};
     chunksRef := [clip];
     log := [EvGetUserMedia; EvToast ToastPlain "Recording…"];
     objectUrls := [("blob:0", speech)]; nextUrl := 1 |}.

(** What the [try] block of an attempt throws, if it throws. *)
Definition thrown (net : result Response) : option exn :=
  match outcome (AgentUnified.exchange_try net) initial with
  | Ok _ => None
  | Throw e => Some e
  end.

(** The text under [audio_b64] carries the bytes [buf]: their base64
    text when there are bytes, or that text behind a data-URI header. *)
Definition carries (audio : string) (buf : list byte) : Prop :=
  (audio = Base64.encode_bytes buf /\ buf <> [])
  \/ (exists header, Str.includes_char ","%char header = false
                     /\ audio = header ++ "," ++ Base64.encode_bytes buf).

(** At most one object URL is live, and it is the one of the clip
    shown. *)
Definition tidy (s : State) : Prop :=
  match objectUrls s with
  | [] => audioUrl s = EmptyString
  | [(u, _)] => u = audioUrl s /\ Str.truthy u = true
  | _ => False
  end.

Definition reply_speech : Response :=
  json_reply 200 "OK"
    (JObj [("text", JStr "No events");
           ("audio_b64", JStr "data:audio/mpeg;base64,SUQzBAA=");
           ("mime", JStr "Audio/MP3")]).

(** A reply in plain text. *)
Definition plain_reply (code : Z) (reason text : string) : Response :=
  {| status := code; statusText := reason;
     contentType := Some "text/plain; charset=utf-8";
     bodyText := text;
     bodyJson := Throw {| exn_name := "SyntaxError";
                          exn_message := "Unexpected token" |} |}.

(** The component of [only-for-test.tsx] showing an earlier reply. *)
Definition improved_showing : AgentImproved.State :=
  {| AgentImproved.input := "Show my calendar for today";
     AgentImproved.markdown := JStr "Meeting at 10";
     AgentImproved.isLoading := false;
     AgentImproved.log := [] |}.



(** A text without its ASCII white space. *)
Definition without_whitespace (s : string) : string :=
  string_of_list_ascii
    (List.filter (fun c => negb (Base64.is_ascii_whitespace c))
       (list_ascii_of_string s)).

(** A character that base64 text cannot hold: outside the alphabet, not
    the padding character and not white space. *)
Definition foreign (c : ascii) : bool :=
  match Base64.char_sextet c with Some _ => false | None => true end
  && negb (Ascii.eqb c Base64.pad)
  && negb (Base64.is_ascii_whitespace c).

Fixpoint has_foreign (s : string) : bool :=
  match s with
  | EmptyString => false
  | String c s' => foreign c || has_foreign s'
  end.

(* ------------------------------------------------------------------ *)
(** * What the components render *)

Module AgentImprovedView.

(** The parts of the page of [only-for-test.tsx] that depend on the
    state. *)
Record View : Type :=
  { input_disabled : bool;         (* disabled={isLoading} *)
    submit_disabled : bool;        (* disabled={isLoading || !input.trim()} *)
    submit_label : string;         (* isLoading ? "Loading…" : "Get Events" *)
    loading_card : bool;           (* isLoading && ... *)
    markdown_card : bool;          (* !isLoading && markdown && ... *)
    examples_card : bool }.        (* !isLoading && !markdown && ... *)

Definition render (s : AgentImproved.State) : View :=
  {| input_disabled := AgentImproved.isLoading s;
     submit_disabled :=
       AgentImproved.isLoading s
       || negb (Str.truthy (Str.trim (AgentImproved.input s)));
     submit_label :=
       if AgentImproved.isLoading s then "Loading…" else "Get Events";
     loading_card := AgentImproved.isLoading s;
     markdown_card :=
       negb (AgentImproved.isLoading s)
       && Json.truthy (AgentImproved.markdown s);
     examples_card :=
       negb (AgentImproved.isLoading s)
       && negb (Json.truthy (AgentImproved.markdown s)) |}.

End AgentImprovedView.

Module AgentUnifiedView.

(** The controls and cards of the unified component. *)
Record View : Type :=
  { voice_controls : bool;         (* mode === "voice" *)
    text_controls : bool;          (* mode === "text" *)
    mic_disabled : bool;           (* disabled={isLoading} *)
    mic_stops : bool;              (* isRecording ? stopRecording : startRecording *)
    input_disabled : bool;         (* disabled={isLoading} *)
    send_disabled : bool;          (* disabled={isLoading || !textQuery.trim()} *)
    loading_card : bool;           (* isLoading *)
    audio_card : bool;             (* audioUrl *)
    markdown_card : bool;          (* markdown *)
    hint_card : bool }.            (* !markdown && !audioUrl && !isLoading *)

Definition render (s : State) : View :=
  {| voice_controls := match mode s with Voice => true | Text => false end;
     text_controls := match mode s with Text => true | Voice => false end;
     mic_disabled := isLoading s;
     mic_stops := isRecording s;
     input_disabled := isLoading s;
     send_disabled := isLoading s || negb (Str.truthy (Str.trim (textQuery s)));
     loading_card := isLoading s;
     audio_card := Str.truthy (audioUrl s);
     markdown_card := Json.truthy (markdown s);
     hint_card :=
       negb (Json.truthy (markdown s))
       && negb (Str.truthy (audioUrl s))
       && negb (isLoading s) |}.

(** A click on Send: a disabled button does not call its handler. *)
Definition click_send (net : result Response) : M State unit :=
  fun s => if send_disabled (render s) then (Ok tt, s)
           else AgentUnified.sendText net s.

(** The Enter key in the text field, [e.key === "Enter" && sendText()]:
    a disabled field takes no key. *)
Definition press_enter (net : result Response) : M State unit :=
  fun s => if input_disabled (render s) then (Ok tt, s)
           else AgentUnified.sendText net s.

End AgentUnifiedView.

(** ** Reading a JSON string literal back (RFC 8259) *)

Module JsonRead.

Definition hex_value (c : ascii) : option N :=
  let n := N_of_ascii c in
  (if (48 <=? n) && (n <=? 57) then Some (n - 48)
   else if (97 <=? n) && (n <=? 102) then Some (n - 87)
   else if (65 <=? n) && (n <=? 70) then Some (n - 55)
   else None)%N.

Definition backslash : ascii := ascii_of_N 92.
Definition quote_mark : ascii := ascii_of_N 34.

(** Reads the characters of a string literal after its opening quote:
    the text it denotes and what follows its closing quote.  Only the
    escapes [\u00XX] are read among the [\u] ones, the others denoting
    code units this embedding does not have. *)
Fixpoint read_string (s : string) : option (string * string) :=
  match s with
  | EmptyString => None
  | String c rest =>
      if Ascii.eqb c quote_mark then Some (EmptyString, rest)
      else if Ascii.eqb c backslash then
        match rest with
        | String e rest' =>
            let simple (d : ascii) :=
              match read_string rest' with
              | Some (t, r) => Some (String d t, r)
              | None => None
              end in
            if Ascii.eqb e quote_mark then simple quote_mark
            else if Ascii.eqb e backslash then simple backslash
            else if Ascii.eqb e "/"%char then simple "/"%char
            else if Ascii.eqb e "b"%char then simple (ascii_of_N 8)
            else if Ascii.eqb e "f"%char then simple (ascii_of_N 12)
            else if Ascii.eqb e "n"%char then simple (ascii_of_N 10)
            else if Ascii.eqb e "r"%char then simple (ascii_of_N 13)
            else if Ascii.eqb e "t"%char then simple (ascii_of_N 9)
            else if Ascii.eqb e "u"%char then
              match rest' with
              | String h1 (String h2 (String h3 (String h4 rest''))) =>
                  match hex_value h1, hex_value h2, hex_value h3, hex_value h4,
                        read_string rest'' with
                  | Some 0%N, Some 0%N, Some a, Some b, Some (t, r) =>
                      Some (String (ascii_of_N (a * 16 + b)) t, r)
                  | _, _, _, _, _ => None
                  end
              | _ => None
              end
            else None
        | EmptyString => None
        end
      else if (N_of_ascii c <? 32)%N then None
      else match read_string rest with
           | Some (t, r) => Some (String c t, r)
           | None => None
           end
  end.

End JsonRead.
(* ================================================================== *)
(** * Properties *)

(** ** Generic list and string facts *)

(** Induction over a list three elements at a time, as the encoder
    consumes its input. *)
Lemma list_ind3 (A : Type) (P : list A -> Prop) :
  P [] ->
  (forall a, P [a]) ->
  (forall a b, P [a; b]) ->
  (forall a b c l, P l -> P (a :: b :: c :: l)) ->
  forall l, P l.
Proof.
  intros H0 H1 H2 H3.
  assert (H : forall l, P l /\ (forall a, P (a :: l)) /\ (forall a b, P (a :: b :: l))).
  { induction l as [|x l [IH0 [IH1 IH2]]].
    - repeat split; auto.
    - repeat split; auto. }
  intro l. apply H.
Qed.

Lemma filter_all_true (A : Type) (f : A -> bool) (l : list A) :
  Forall (fun x => f x = true) l -> List.filter f l = l.
Proof.
  induction 1 as [|x l Hx _ IH]; simpl.
  - reflexivity.
  - rewrite Hx, IH. reflexivity.
Qed.

(** ** Base64 *)

Module Base64Facts.

Import Base64 Base64Defs.


Lemma sextets_all_ok :
  List.forallb sextet_ok (List.map N.of_nat (List.seq 0 64)) = true.
Proof. vm_compute. reflexivity. Qed.

Lemma sextet_ok_lt (n : N) : (n < 64)%N -> sextet_ok n = true.
Proof.
  intro Hn.
  pose proof sextets_all_ok as H.
  rewrite forallb_forall in H. apply H.
  apply in_map_iff. exists (N.to_nat n). split.
  - apply N2Nat.id.
  - apply in_seq. lia.
Qed.

Lemma char_sextet_char (n : N) :
  (n < 64)%N -> char_sextet (sextet_char n) = Some n.
Proof.
  intro Hn. pose proof (sextet_ok_lt n Hn) as H.
  unfold sextet_ok in H.
  repeat (apply andb_prop in H; destruct H as [H ?]).
  destruct (char_sextet (sextet_char n)) as [m|]; [|discriminate].
  apply N.eqb_eq in H. subst. reflexivity.
Qed.

Lemma sextet_char_not_pad (n : N) :
  (n < 64)%N -> Ascii.eqb (sextet_char n) pad = false.
Proof.
  intro Hn. pose proof (sextet_ok_lt n Hn) as H.
  unfold sextet_ok in H.
  repeat (apply andb_prop in H; destruct H as [H ?]).
  now apply negb_true_iff.
Qed.

Lemma sextet_char_not_space (n : N) :
  (n < 64)%N -> is_ascii_whitespace (sextet_char n) = false.
Proof.
  intro Hn. pose proof (sextet_ok_lt n Hn) as H.
  unfold sextet_ok in H.
  repeat (apply andb_prop in H; destruct H as [H ?]).
  now apply negb_true_iff.
Qed.

Lemma sextet_char_not_comma (n : N) :
  (n < 64)%N -> Ascii.eqb (sextet_char n) comma = false.
Proof.
  intro Hn. pose proof (sextet_ok_lt n Hn) as H.
  unfold sextet_ok in H.
  repeat (apply andb_prop in H; destruct H as [H ?]).
  now apply negb_true_iff.
Qed.


Lemma encode_split (bs : list ascii) :
  encode bs = (List.map sextet_char (enc_sextets bs) ++ enc_padding bs)%list.
Proof.
  induction bs as [|a|a b|a b c l IH] using list_ind3; try reflexivity.
  change (encode (a :: b :: c :: l)) with
    (sextet_char (N_of_ascii a / 4)
     :: sextet_char ((N_of_ascii a mod 4) * 16 + N_of_ascii b / 16)
     :: sextet_char ((N_of_ascii b mod 16) * 4 + N_of_ascii c / 64)
     :: sextet_char (N_of_ascii c mod 64) :: encode l)%N.
  rewrite IH. reflexivity.
Qed.

Lemma enc_sextets_bounded (bs : list ascii) :
  Forall (fun n => (n < 64)%N) (enc_sextets bs).
Proof.
  induction bs as [|a|a b|a b c l IH] using list_ind3.
  - constructor.
  - pose proof (N_ascii_bounded a).
    cbn [enc_sextets]. repeat (apply Forall_cons; [lia|]). apply Forall_nil.
  - pose proof (N_ascii_bounded a). pose proof (N_ascii_bounded b).
    cbn [enc_sextets]. repeat (apply Forall_cons; [lia|]). apply Forall_nil.
  - pose proof (N_ascii_bounded a). pose proof (N_ascii_bounded b).
    pose proof (N_ascii_bounded c).
    change (enc_sextets (a :: b :: c :: l)) with
      (N_of_ascii a / 4
       :: (N_of_ascii a mod 4) * 16 + N_of_ascii b / 16
       :: (N_of_ascii b mod 16) * 4 + N_of_ascii c / 64
       :: N_of_ascii c mod 64 :: enc_sextets l)%N.
    repeat (apply Forall_cons; [lia|]). exact IH.
Qed.

Lemma enc_padding_cases (bs : list ascii) :
  enc_padding bs = [] \/ enc_padding bs = [pad] \/ enc_padding bs = [pad; pad].
Proof.
  induction bs as [|a|a b|a b c l IH] using list_ind3; simpl; auto.
Qed.

(** Every character the encoder writes satisfies [f], when the
    characters of sextets and the padding character do. *)
Lemma encode_Forall (f : ascii -> bool) (bs : list ascii) :
  (forall n, (n < 64)%N -> f (sextet_char n) = true) ->
  f pad = true ->
  Forall (fun c => f c = true) (encode bs).
Proof.
  intros Hs Hp. rewrite encode_split. apply Forall_app. split.
  - apply Forall_map.
    eapply Forall_impl; [|apply enc_sextets_bounded].
    intros n Hn. now apply Hs.
  - destruct (enc_padding_cases bs) as [-> | [-> | ->]];
      repeat constructor; assumption.
Qed.

Lemma encode_length_mod4 (bs : list ascii) :
  (N.of_nat (List.length (encode bs)) mod 4 = 0)%N.
Proof.
  induction bs as [|a|a b|a b c l IH] using list_ind3; try reflexivity.
  change (List.length (encode (a :: b :: c :: l)))
    with (S (S (S (S (List.length (encode l)))))).
  lia.
Qed.

Lemma enc_sextets_length_mod4 (bs : list ascii) :
  (N.of_nat (List.length (enc_sextets bs)) mod 4 <> 1)%N.
Proof.
  induction bs as [|a|a b|a b c l IH] using list_ind3; try discriminate.
  change (List.length (enc_sextets (a :: b :: c :: l)))
    with (S (S (S (S (List.length (enc_sextets l)))))).
  lia.
Qed.

(** Stripping the padding gives back the characters before it. *)
Lemma strip_padding_app (body p : list ascii) :
  Forall (fun c => Ascii.eqb c pad = false) body ->
  p = [] \/ p = [pad] \/ p = [pad; pad] ->
  strip_padding (body ++ p)%list = body.
Proof.
  intros Hbody Hp.
  assert (Hrev : Forall (fun c => Ascii.eqb c pad = false) (List.rev body))
    by now apply Forall_rev.
  unfold strip_padding. rewrite rev_app_distr.
  destruct Hp as [-> | [-> | ->]]; simpl.
  - rewrite app_nil_r.
    destruct (List.rev body) as [|x [|y r]] eqn:E; try reflexivity.
    + inversion Hrev as [|? ? Hx _]; subst. now rewrite Hx.
    + inversion Hrev as [|? ? Hx _]; subst. now rewrite Hx.
  - destruct (List.rev body) as [|y r] eqn:E.
    + apply (f_equal (@List.rev ascii)) in E.
      rewrite rev_involutive in E. now subst.
    + inversion Hrev as [|? ? Hy _]; subst. rewrite Hy.
      change (List.rev r ++ [y])%list with (List.rev (y :: r)).
      rewrite <- E. apply rev_involutive.
  - apply rev_involutive.
Qed.

Lemma sextets_map (ss : list N) :
  Forall (fun n => (n < 64)%N) ss ->
  sextets (List.map sextet_char ss) = Some ss.
Proof.
  induction 1 as [|n ss Hn _ IH]; simpl.
  - reflexivity.
  - rewrite (char_sextet_char n Hn), IH. reflexivity.
Qed.

(** One round of the decoder: four sextets leave as three bytes and
    the bit buffer is empty again. *)
Lemma decode_loop_round (s1 s2 s3 s4 : N) (ss : list N) :
  decode_loop (s1 :: s2 :: s3 :: s4 :: ss) 0 0 =
  let buffer := ((((0 * 64 + s1) * 64 + s2) * 64 + s3) * 64 + s4)%N in
  ascii_of_N (buffer / 65536)
  :: ascii_of_N ((buffer / 256) mod 256)
  :: ascii_of_N (buffer mod 256)
  :: decode_loop ss 0 0.
Proof. reflexivity. Qed.

Lemma decode_loop_enc (bs : list ascii) :
  decode_loop (enc_sextets bs) 0 0 = bs.
Proof.
  induction bs as [|a|a b|a b c l IH] using list_ind3.
  - reflexivity.
  - pose proof (N_ascii_bounded a) as Ha.
    change (decode_loop (enc_sextets [a]) 0 0) with
      [ascii_of_N (((0 * 64 + N_of_ascii a / 4) * 64
                    + N_of_ascii a mod 4 * 16) / 16)%N].
    replace (((0 * 64 + N_of_ascii a / 4) * 64
              + N_of_ascii a mod 4 * 16) / 16)%N
      with (N_of_ascii a) by lia.
    now rewrite ascii_N_embedding.
  - pose proof (N_ascii_bounded a) as Ha.
    pose proof (N_ascii_bounded b) as Hb.
    change (decode_loop (enc_sextets [a; b]) 0 0) with
      (let buffer := (((0 * 64 + N_of_ascii a / 4) * 64
                       + (N_of_ascii a mod 4 * 16 + N_of_ascii b / 16)) * 64
                      + N_of_ascii b mod 16 * 4)%N in
       [ascii_of_N (buffer / 4 / 256); ascii_of_N ((buffer / 4) mod 256)]%N).
    cbv zeta.
    match goal with
    | |- [ascii_of_N ?u; ascii_of_N ?v] = _ =>
        replace u with (N_of_ascii a) by lia;
        replace v with (N_of_ascii b) by lia
    end.
    now rewrite !ascii_N_embedding.
  - pose proof (N_ascii_bounded a) as Ha.
    pose proof (N_ascii_bounded b) as Hb.
    pose proof (N_ascii_bounded c) as Hc.
    change (enc_sextets (a :: b :: c :: l)) with
      (N_of_ascii a / 4
       :: (N_of_ascii a mod 4) * 16 + N_of_ascii b / 16
       :: (N_of_ascii b mod 16) * 4 + N_of_ascii c / 64
       :: N_of_ascii c mod 64 :: enc_sextets l)%N.
    rewrite decode_loop_round. cbv zeta. rewrite IH.
    match goal with
    | |- ascii_of_N ?u :: ascii_of_N ?v :: ascii_of_N ?w :: _ = _ =>
        replace u with (N_of_ascii a) by lia;
        replace v with (N_of_ascii b) by lia;
        replace w with (N_of_ascii c) by lia
    end.
    now rewrite !ascii_N_embedding.
Qed.

Lemma decode_encode (bs : list ascii) : decode (encode bs) = Some bs.
Proof.
  unfold decode.
  rewrite filter_all_true.
  2:{ apply (encode_Forall (fun c => negb (is_ascii_whitespace c))).
      - intros n Hn. now rewrite sextet_char_not_space.
      - reflexivity. }
  rewrite encode_length_mod4. cbn [N.eqb].
  rewrite encode_split, strip_padding_app.
  2:{ apply Forall_map.
      eapply Forall_impl; [|apply enc_sextets_bounded].
      intros n Hn. now apply sextet_char_not_pad. }
  2:{ apply enc_padding_cases. }
  rewrite length_map.
  destruct (N.eqb_spec (N.of_nat (List.length (enc_sextets bs)) mod 4) 1) as [E|_].
  - now apply enc_sextets_length_mod4 in E.
  - rewrite sextets_map by apply enc_sextets_bounded.
    now rewrite decode_loop_enc.
Qed.

(** [atob] undoes [btoa]. *)
Lemma atob_btoa (binary : string) : atob (btoa binary) = Some binary.
Proof.
  unfold atob, btoa.
  rewrite list_ascii_of_string_of_list_ascii, decode_encode. simpl.
  now rewrite string_of_list_ascii_of_string.
Qed.

(** The base64 text holds no comma. *)
Lemma btoa_no_comma (binary : string) :
  Str.includes_char comma (btoa binary) = false.
Proof.
  unfold btoa.
  pose proof (encode_Forall (fun c => negb (Ascii.eqb c comma))
                (list_ascii_of_string binary)) as H.
  assert (Hall : Forall (fun c => negb (Ascii.eqb c comma) = true)
                   (encode (list_ascii_of_string binary))).
  { apply H.
    - intros n Hn. now rewrite sextet_char_not_comma.
    - reflexivity. }
  clear H. induction Hall as [|x l Hx _ IH]; simpl.
  - reflexivity.
  - apply negb_true_iff in Hx. now rewrite Hx.
Qed.

End Base64Facts.

(** The decoder on padded, unpadded, spaced and malformed input. *)
Example atob_examples :
  Base64.atob "SGVsbG8=" = Some "Hello"
  /\ Base64.atob "SGk" = Some "Hi"
  /\ Base64.atob " SGVs bG8= " = Some "Hello"
  /\ Base64.atob "SGVsbG8" = Some "Hello"
  /\ Base64.atob "TQ=" = None
  /\ Base64.atob "T" = None
  /\ Base64.atob "%" = None
  /\ Base64.btoa "Hello" = "SGVsbG8=".
Proof. repeat split. Qed.

(** ** Splitting, trimming *)

Module StrFacts.

Import Str.

Lemma includes_char_app_sep (c : ascii) (h e : string) :
  includes_char c (h ++ String c e) = true.
Proof.
  induction h as [|a h IH]; simpl.
  - now rewrite Ascii.eqb_refl.
  - destruct (Ascii.eqb a c); [reflexivity | exact IH].
Qed.

Lemma split_char_none (c : ascii) (e : string) :
  includes_char c e = false -> split_char c e = [e].
Proof.
  induction e as [|a e IH]; simpl; intro H.
  - reflexivity.
  - destruct (Ascii.eqb a c); [discriminate|].
    now rewrite (IH H).
Qed.

Lemma split_char_app_sep (c : ascii) (h e : string) :
  includes_char c h = false ->
  split_char c (h ++ String c e) = h :: split_char c e.
Proof.
  induction h as [|a h IH]; simpl; intro H.
  - now rewrite Ascii.eqb_refl.
  - destruct (Ascii.eqb a c); [discriminate|].
    now rewrite (IH H).
Qed.

Lemma trim_start_blank (s : string) :
  blank s = true -> trim_start s = EmptyString.
Proof.
  induction s as [|a s IH]; simpl; intro H.
  - reflexivity.
  - apply andb_prop in H. destruct H as [Ha Hs].
    rewrite Ha. now apply IH.
Qed.

(** A blank string trims to the empty string. *)
Lemma trim_blank (s : string) : blank s = true -> trim s = EmptyString.
Proof.
  intro H. unfold trim. now rewrite (trim_start_blank s H).
Qed.

Lemma trim_start_not_blank (s : string) :
  blank s = false ->
  exists a t, trim_start s = String a t /\ is_js_whitespace a = false.
Proof.
  induction s as [|a s IH]; simpl; intro H.
  - discriminate.
  - destruct (is_js_whitespace a) eqn:Ha.
    + now apply IH.
    + now exists a, s.
Qed.

Lemma trim_start_last (l : list ascii) (a : ascii) :
  is_js_whitespace a = false ->
  truthy (trim_start (string_of_list_ascii (l ++ [a])%list)) = true.
Proof.
  intro Ha. induction l as [|x l IH]; simpl.
  - now rewrite Ha.
  - destruct (is_js_whitespace x); [exact IH | reflexivity].
Qed.

Lemma truthy_rev (s : string) : truthy (rev s) = truthy s.
Proof.
  unfold rev. destruct s as [|a s]; simpl.
  - reflexivity.
  - destruct (List.rev (list_ascii_of_string s)); reflexivity.
Qed.

(** A string with a character that is not white space does not trim to
    the empty string. *)
Lemma trim_not_blank (s : string) :
  blank s = false -> truthy (trim s) = true.
Proof.
  intro H. destruct (trim_start_not_blank s H) as (a & t & E & Ha).
  unfold trim, trim_end. rewrite E, truthy_rev.
  unfold rev at 1. simpl.
  destruct (List.rev (list_ascii_of_string t)) as [|x r] eqn:Er.
  - simpl. now rewrite Ha.
  - change ((x :: r) ++ [a])%list with (x :: (r ++ [a]))%list.
    simpl.
    destruct (is_js_whitespace x); [|reflexivity].
    now apply trim_start_last.
Qed.

End StrFacts.

Lemma fetches_app (l1 l2 : list event) :
  fetches (l1 ++ l2)%list = (fetches l1 ++ fetches l2)%list.
Proof.
  induction l1 as [|e l1 IH]; simpl.
  - reflexivity.
  - destruct e; simpl; now rewrite IH.
Qed.

(** ** Decoding the audio of a reply *)

(** C5.  Decoding is a left inverse of encoding: for every byte buffer,
    [base64ToBlob] applied to the base64 text of the buffer gives a blob
    with exactly the bytes of the buffer, and so it does when the text
    follows a data-URI header, that is, a prefix that ends with the
    first comma of the string. *)
Theorem base64ToBlob_encode_bytes (buf : list byte) (header mime : string) :
  Str.includes_char ","%char header = false ->
  base64ToBlob (Base64.encode_bytes buf) mime = Ok (Blobs.of_bytes buf mime)
  /\ base64ToBlob (header ++ "," ++ Base64.encode_bytes buf) mime
     = Ok (Blobs.of_bytes buf mime).
Proof.
  intro Hheader.
  pose proof (Base64Facts.btoa_no_comma (string_of_list_byte buf)) as Hc.
  pose proof (Base64Facts.atob_btoa (string_of_list_byte buf)) as Hd.
  unfold Base64Defs.comma in Hc. unfold Base64.encode_bytes.
  split; unfold base64ToBlob.
  - rewrite Hc, Hd. now rewrite list_byte_of_string_of_list_byte.
  - change ("," ++ Base64.btoa (string_of_list_byte buf))
      with (String ","%char (Base64.btoa (string_of_list_byte buf))).
    rewrite StrFacts.includes_char_app_sep.
    rewrite StrFacts.split_char_app_sep by exact Hheader.
    rewrite StrFacts.split_char_none by exact Hc.
    cbn [List.nth_error].
    rewrite Hd. now rewrite list_byte_of_string_of_list_byte.
Qed.


Lemma base64ToBlob_encode_bytes_witness :
  base64ToBlob "SUQzBAA=" "audio/mpeg"
  = Ok {| blob_bytes := id3_bytes; blob_type := "audio/mpeg" |}
  /\ base64ToBlob "data:audio/mpeg;base64,SUQzBAA=" "audio/mpeg"
     = Ok {| blob_bytes := id3_bytes; blob_type := "audio/mpeg" |}.
Proof.
  exact (base64ToBlob_encode_bytes id3_bytes "data:audio/mpeg;base64"
           "audio/mpeg" eq_refl).
Defined.

(* ------------------------------------------------------------------ *)
(** ** Capture *)

(** With nothing recorded, the [stop] handler of either revision is its
    error toast. *)
Lemma onstop_empty
  (st : State) (recorder : MediaRecorder) (net : result Response) :
  recorded_size st = 0%N ->
  AgentAudio.onstop recorder net st = toast ToastError "Recording empty." st
  /\ AgentUnified.onstop recorder net st
     = toast ToastError "Empty recording, try again." st.
Proof.
  intro H.
  assert (E : forall t, (Blobs.size (Blobs.make (chunksRef st) t) =? 0)%N = true).
  { intro t. apply N.eqb_eq. exact H. }
  split.
  - unfold AgentAudio.onstop, bind, gets. now rewrite E.
  - unfold AgentUnified.onstop, bind, gets. now rewrite E.
Qed.

(** C6.  When the chunks gathered by a recording add up to no bytes, the
    [stop] handler does nothing but report the empty recording: it is the
    error toast alone, in both revisions, so [sendAudio] does not run and
    no request leaves. *)
Theorem empty_recording_not_sent
  (st : State) (recorder : MediaRecorder) (net : result Response) :
  recorded_size st = 0%N ->
  AgentAudio.onstop recorder net st = toast ToastError "Recording empty." st
  /\ AgentUnified.onstop recorder net st
     = toast ToastError "Empty recording, try again." st
  /\ fetches (log (exec (AgentAudio.onstop recorder net) st)) = fetches (log st)
  /\ fetches (log (exec (AgentUnified.onstop recorder net) st)) = fetches (log st).
Proof.
  intro H. destruct (onstop_empty st recorder net H) as [E1 E2].
  repeat split; try assumption; unfold exec.
  - rewrite E1. cbn. rewrite fetches_app. cbn. apply app_nil_r.
  - rewrite E2. cbn. rewrite fetches_app. cbn. apply app_nil_r.
Qed.

Lemma empty_recording_not_sent_witness :
  exec (AgentAudio.onstop
          {| rec_mimeType := "audio/webm"; rec_state := Inactive;
             rec_stream := [Live] |}
          (Throw (TypeError "Failed to fetch"))) silent_session
  = exec (toast ToastError "Recording empty.") silent_session.
Proof.
  unfold exec.
  exact (f_equal snd
           (proj1 (empty_recording_not_sent silent_session
                     {| rec_mimeType := "audio/webm"; rec_state := Inactive;
                        rec_stream := [Live] |}
                     (Throw (TypeError "Failed to fetch")) eq_refl))).
Defined.

(** C3 (what the code does).  Stopping a recording that gathered nothing
    leaves the track of the stream live: the [stop] handler returns at
    the empty-recording toast, before the line that stops the tracks.
    Both revisions behave so. *)
Theorem empty_recording_keeps_track_live :
  held_tracks (exec (AgentAudio.stopRecording empty_blob
                       (Throw (TypeError "Failed to fetch"))) silent_session)
  = [Live]
  /\ held_tracks (exec (AgentUnified.stopRecording empty_blob
                          (Throw (TypeError "Failed to fetch"))) silent_session)
     = [Live].
Proof. split; reflexivity. Qed.

(** In general: with nothing recorded, the [stop] handler leaves every
    track of the stream as it was. *)
Lemma empty_recording_keeps_tracks
  (st : State) (recorder : MediaRecorder) (net : result Response) :
  recorded_size st = 0%N ->
  held_tracks (exec (AgentAudio.onstop recorder net) st) = held_tracks st
  /\ held_tracks (exec (AgentUnified.onstop recorder net) st) = held_tracks st.
Proof.
  intro H. destruct (onstop_empty st recorder net H) as [E1 E2].
  unfold exec. rewrite E1, E2. split; reflexivity.
Qed.

(** The voice-only component refuses to record outside a secure context
    or a local host: the handler is the error toast alone, and the
    device is not asked. *)
Lemma startRecording_insecure_guard (env : Env) (st : State) :
  isSecureContextOrLocal env = false ->
  AgentAudio.startRecording env st = toast ToastError "Insecure context." st.
Proof.
  intro H. unfold AgentAudio.startRecording. now rewrite H.
Qed.

(** C4 (what the code does).  The unified component has no such guard:
    outside a secure context and off a local host, its [startRecording]
    asks for the device. *)
Theorem unified_startRecording_asks_device :
  isSecureContextOrLocal insecure_env = false
  /\ log (exec (AgentUnified.startRecording insecure_env) initial)
     = [EvGetUserMedia; EvToast ToastError "Permission denied"].
Proof. split; reflexivity. Qed.

(* ------------------------------------------------------------------ *)
(** ** Frame rules *)

Section Frame.

Context {S : Type} (R : S -> S -> Prop).
Hypothesis R_refl : forall s, R s s.
Hypothesis R_trans : forall a b c, R a b -> R b c -> R a c.

Lemma keeps_ret {A} (a : A) : keeps R (ret a).
Proof. intro s. apply R_refl. Qed.

Lemma keeps_throw {A} (e : exn) : keeps R (@throw S A e).
Proof. intro s. apply R_refl. Qed.

Lemma keeps_lift {A} (r : result A) : keeps R (lift r).
Proof. intro s. apply R_refl. Qed.

Lemma keeps_gets {A} (f : S -> A) : keeps R (gets f).
Proof. intro s. apply R_refl. Qed.

Lemma keeps_bind {A B} (m : M S A) (k : A -> M S B) :
  keeps R m -> (forall a, keeps R (k a)) -> keeps R (bind m k).
Proof.
  intros Hm Hk s. unfold exec, bind.
  specialize (Hm s). unfold exec in Hm.
  destruct (m s) as [[a|e] s']; simpl in *.
  - eapply R_trans; [exact Hm | apply Hk].
  - exact Hm.
Qed.

Lemma keeps_try_catch {A} (m : M S A) (h : exn -> M S A) :
  keeps R m -> (forall e, keeps R (h e)) -> keeps R (try_catch m h).
Proof.
  intros Hm Hh s. unfold exec, try_catch.
  specialize (Hm s). unfold exec in Hm.
  destruct (m s) as [[a|e] s']; simpl in *.
  - exact Hm.
  - eapply R_trans; [exact Hm | apply Hh].
Qed.

Lemma keeps_try_finally {A} (m : M S A) (fin : M S unit) :
  keeps R m -> keeps R fin -> keeps R (try_finally m fin).
Proof.
  intros Hm Hf s. unfold exec, try_finally.
  specialize (Hm s). unfold exec in Hm.
  destruct (m s) as [r s']; simpl in *.
  specialize (Hf s'). unfold exec in Hf.
  destruct (fin s') as [[u|e] s'']; simpl in *;
    eapply R_trans; eassumption.
Qed.

End Frame.

Lemma settle_frame_refl (s : State) : settle_frame s s.
Proof. repeat split. Qed.

Lemma settle_frame_trans (a b c : State) :
  settle_frame a b -> settle_frame b c -> settle_frame a c.
Proof.
  unfold settle_frame. intros (H1 & H2 & H3 & H4 & H5 & H6) (K1 & K2 & K3 & K4 & K5 & K6).
  repeat split; congruence.
Qed.

Lemma keeps_setMarkdown (v : json) : keeps settle_frame (setMarkdown v).
Proof. intro s. repeat split. Qed.

Lemma keeps_setAudioUrl (u : string) : keeps settle_frame (setAudioUrl u).
Proof. intro s. repeat split. Qed.

Lemma keeps_setLoading (b : bool) : keeps settle_frame (setLoading b).
Proof. intro s. repeat split. Qed.

Lemma keeps_revokeObjectURL (u : string) : keeps settle_frame (revokeObjectURL u).
Proof. intro s. repeat split. Qed.

Lemma keeps_createObjectURL (b : Blob) : keeps settle_frame (createObjectURL b).
Proof. intro s. repeat split. Qed.

Lemma keeps_toast (k : toast_kind) (msg : string) : keeps settle_frame (toast k msg).
Proof.
  intro s. repeat split. cbn. rewrite fetches_app. cbn. apply app_nil_r.
Qed.

Lemma keeps_when (c : bool) (m : M State unit) :
  keeps settle_frame m -> keeps settle_frame (when c m).
Proof.
  intro H. destruct c; [exact H|]. intro s. apply settle_frame_refl.
Qed.

Create HintDb frame.

#[local] Hint Resolve settle_frame_refl : frame.
#[local] Hint Resolve keeps_setMarkdown keeps_setAudioUrl keeps_setLoading
  keeps_revokeObjectURL keeps_createObjectURL keeps_toast keeps_when : frame.

(** Splits a handler along its structure and closes the leaves with the
    rules of the primitives. *)
Ltac frame :=
  repeat first
    [ apply (keeps_bind settle_frame settle_frame_trans); [|intro]
    | apply (keeps_try_finally settle_frame settle_frame_trans)
    | apply (keeps_try_catch settle_frame settle_frame_trans); [|intro]
    | apply (keeps_ret settle_frame settle_frame_refl)
    | apply (keeps_throw settle_frame settle_frame_refl)
    | apply (keeps_lift settle_frame settle_frame_refl)
    | apply (keeps_gets settle_frame settle_frame_refl)
    | solve [auto with frame]
    | match goal with
      | |- keeps _ (if ?c then _ else _) => destruct c
      | |- keeps _ (match ?x with _ => _ end) => destruct x
      end ].

Lemma keeps_handleBackendJson (data : json) :
  keeps settle_frame (AgentUnified.handleBackendJson data).
Proof. unfold AgentUnified.handleBackendJson. frame. Qed.

Lemma keeps_exchange_settle (net : result Response) :
  keeps settle_frame (AgentUnified.exchange_settle net).
Proof.
  unfold AgentUnified.exchange_settle, AgentUnified.exchange_try. frame.
Qed.

Lemma keeps_sendAudio_settle (net : result Response) :
  keeps settle_frame (AgentAudio.sendAudio_settle net).
Proof.
  unfold AgentAudio.sendAudio_settle, AgentAudio.sendAudio_try. frame.
Qed.

(* ------------------------------------------------------------------ *)
(** ** Running a handler *)

(** Unfolds the monad and the primitives of the component, then
    computes. *)
Ltac run :=
  cbv beta iota zeta delta
    [exec outcome try_finally try_catch bind ret throw lift gets modify when
     Json.undefined Json.truthy_val setMarkdown setAudioUrl setLoading setRecording set_mediaRecorderRef
     set_chunksRef emit toast revokeObjectURL createObjectURL release_stream];
  cbn [fst snd markdown audioUrl isLoading isRecording mode textQuery
       mediaRecorderRef chunksRef log objectUrls nextUrl negb Str.truthy].

Tactic Notation "run" "in" hyp(H) :=
  cbv beta iota zeta delta
    [exec outcome try_finally try_catch bind ret throw lift gets modify when
     Json.undefined Json.truthy_val setMarkdown setAudioUrl setLoading setRecording set_mediaRecorderRef
     set_chunksRef emit toast revokeObjectURL createObjectURL release_stream]
    in H;
  cbn [fst snd markdown audioUrl isLoading isRecording mode textQuery
       mediaRecorderRef chunksRef log objectUrls nextUrl negb Str.truthy] in H.

Ltac run_improved :=
  cbv beta iota zeta delta
    [exec outcome try_finally try_catch bind ret throw lift gets modify
     AgentImproved.setMarkdown AgentImproved.setLoading AgentImproved.emit
     AgentImproved.toast];
  cbn [fst snd AgentImproved.input AgentImproved.markdown
       AgentImproved.isLoading AgentImproved.log negb].

(* ------------------------------------------------------------------ *)
(** ** Text queries *)

Lemma sendText_blank (st : State) (net : result Response) :
  Str.blank (textQuery st) = true ->
  AgentUnified.sendText net st = toast ToastError "Please enter a request." st.
Proof.
  intro H. unfold AgentUnified.sendText, bind, gets.
  now rewrite (StrFacts.trim_blank _ H).
Qed.

Lemma sendText_not_blank (st : State) (net : result Response) :
  Str.blank (textQuery st) = false ->
  AgentUnified.sendText net st
  = (setLoading true ;; setAudioUrl EmptyString ;;
     emit (EvFetch (AgentUnified.text_request (textQuery st))) ;;
     AgentUnified.exchange_settle net) st.
Proof.
  intro H. unfold AgentUnified.sendText at 1. unfold bind at 1. unfold gets.
  now rewrite (StrFacts.trim_not_blank _ H).
Qed.

Lemma handleSubmit_blank (ist : AgentImproved.State) (net : result Response) :
  Str.blank (AgentImproved.input ist) = true ->
  AgentImproved.handleSubmit net ist
  = (AgentImproved.emit EvPreventDefault ;;
     AgentImproved.toast ToastError "Please enter a request") ist.
Proof.
  intro H. unfold AgentImproved.handleSubmit.
  unfold bind at 1 3. cbn [AgentImproved.emit modify].
  unfold bind at 1. unfold gets. cbn [AgentImproved.input].
  now rewrite (StrFacts.trim_blank _ H).
Qed.

(** The requests of [fetchEvents]: the one it issues first, nothing
    after it. *)
Lemma fetchEvents_requests (ist : AgentImproved.State) (net : result Response) :
  fetches (AgentImproved.log (exec (AgentImproved.fetchEvents net) ist))
  = (fetches (AgentImproved.log ist)
     ++ [AgentImproved.events_request (AgentImproved.input ist)])%list.
Proof.
  unfold AgentImproved.fetchEvents, AgentImproved.fetchEvents_try.
  destruct net as [res|e]; run_improved.
  - destruct (Str.includes "application/json"
                (match contentType res with Some c => c | None => EmptyString end));
      run_improved.
    + destruct (bodyJson res) as [data|e]; run_improved.
      * destruct (AgentImproved.resolve_text data) as [text|e]; run_improved.
        -- destruct (ok res); run_improved; repeat rewrite fetches_app; cbn;
             now rewrite ?app_nil_r.
        -- repeat rewrite fetches_app; cbn; now rewrite ?app_nil_r.
      * repeat rewrite fetches_app; cbn; now rewrite ?app_nil_r.
    + destruct (ok res); run_improved; repeat rewrite fetches_app; cbn;
        now rewrite ?app_nil_r.
  - repeat rewrite fetches_app; cbn; now rewrite ?app_nil_r.
Qed.

Lemma string_app_assoc (a b c : string) : (a ++ b) ++ c = a ++ (b ++ c).
Proof.
  induction a as [|x a IH]; simpl; [reflexivity | now rewrite IH].
Qed.

Lemma string_app_inv_head (a x y : string) : a ++ x = a ++ y -> x = y.
Proof.
  induction a as [|c a IH]; simpl; intro H.
  - exact H.
  - injection H as H. now apply IH.
Qed.

(** Reading back what [quote_char] writes for one code unit. *)
Lemma read_quote_char (a : ascii) (x : string) :
  JsonRead.read_string (Json.quote_char a ++ x)
  = match JsonRead.read_string x with
    | Some (t, r) => Some (String a t, r)
    | None => None
    end.
Proof.
  destruct a as [[] [] [] [] [] [] [] []]; reflexivity.
Qed.

Lemma read_quote_body (s rest : string) :
  JsonRead.read_string (Json.quote_body s ++ Json.dquote ++ rest)
  = Some (s, rest).
Proof.
  induction s as [|a s IH].
  - reflexivity.
  - cbn [Json.quote_body]. rewrite string_app_assoc, read_quote_char.
    now rewrite IH.
Qed.

Lemma stringify_query (q : string) :
  Json.stringify (JObj [("query", JStr q)])
  = "{" ++ Json.quote "query" ++ ":" ++ Json.dquote
    ++ (Json.quote_body q ++ Json.dquote ++ "}").
Proof.
  unfold Json.stringify.
  cbn [Json.serialize List.map fst snd Str.truthy Json.join String.concat].
  unfold Json.quote at 2.
  now rewrite !string_app_assoc.
Qed.

(** C7 (as stated, refuted).  With only white space typed, [sendText]
    shows its error toast and issues no request, so not the request of
    the typed text. *)
Lemma text_query_request_counterexample :
  Str.blank (textQuery showing_reply_blank_query) = true
  /\ fetches (log (exec (AgentUnified.sendText (Ok reply_full))
                     showing_reply_blank_query)) = []
  /\ fetches (log (exec (AgentUnified.sendText (Ok reply_full))
                     showing_reply_blank_query))
     <> [query_request (textQuery showing_reply_blank_query)].
Proof.
  repeat split; try reflexivity. intro H. discriminate H.
Qed.

(** C7 (amended).  A text query leaves as one POST to the endpoint,
    marked [application/json], whose body is the JSON text of the object
    with the single field [query] holding the text as typed: from
    [sendText] for every text that is not blank, from [fetchEvents] for
    every text.  The body is the opening of the object and of that one
    field, then a string literal that reads back to the text, then the
    closing brace. *)
Theorem text_query_request
  (st : State) (ist : AgentImproved.State) (net : result Response) :
  Str.blank (textQuery st) = false ->
  fetches (log (exec (AgentUnified.sendText net) st))
  = (fetches (log st) ++ [query_request (textQuery st)])%list
  /\ fetches (AgentImproved.log (exec (AgentImproved.fetchEvents net) ist))
     = (fetches (AgentImproved.log ist)
        ++ [query_request (AgentImproved.input ist)])%list
  /\ req_body (query_request (textQuery st))
     = TextBody ("{" ++ Json.quote "query" ++ ":"
                 ++ Json.quote (textQuery st) ++ "}")
  /\ (exists literal,
        req_body (query_request (textQuery st))
        = TextBody ("{" ++ Json.quote "query" ++ ":" ++ Json.dquote ++ literal)
        /\ JsonRead.read_string literal = Some (textQuery st, "}")).
Proof.
  intro H. split; [|split; [|split]].
  - unfold exec. rewrite (sendText_not_blank st net H).
    unfold bind at 1 2 3. cbn [setLoading setAudioUrl emit modify].
    match goal with
    | |- fetches (log (snd (AgentUnified.exchange_settle net ?s1))) = _ =>
        destruct (keeps_exchange_settle net s1) as (_ & _ & _ & _ & _ & Hf);
        unfold exec in Hf; rewrite Hf
    end.
    cbn [log]. rewrite fetches_app. reflexivity.
  - apply fetchEvents_requests.
  - unfold query_request, req_body, Json.stringify.
    cbn [Json.serialize List.map fst snd Str.truthy Json.join String.concat].
    reflexivity.  - exists (Json.quote_body (textQuery st) ++ Json.dquote ++ "}"). split.
    + unfold query_request, req_body. now rewrite stringify_query.
    + apply read_quote_body.
Qed.

Lemma text_query_request_witness :
  fetches (log (exec (AgentUnified.sendText (Throw (TypeError "Failed to fetch")))
                  showing_reply))
  = [query_request "events today"].
Proof.
  exact (proj1 (text_query_request showing_reply
                  {| AgentImproved.input := "events today";
                     AgentImproved.markdown := JStr EmptyString;
                     AgentImproved.isLoading := false;
                     AgentImproved.log := [] |}
                  (Throw (TypeError "Failed to fetch")) eq_refl)).
Defined.

(** C10.  A text that is empty or white space only is turned away before
    anything else happens: the handler is the error toast alone, no
    request leaves, and the summary, the clip and the loading flag stay
    as they were. *)
Theorem blank_query_rejected_locally
  (st : State) (ist : AgentImproved.State) (net : result Response) :
  Str.blank (textQuery st) = true ->
  Str.blank (AgentImproved.input ist) = true ->
  let st' := exec (AgentUnified.sendText net) st in
  let ist' := exec (AgentImproved.handleSubmit net) ist in
  (fetches (log st') = fetches (log st)
   /\ markdown st' = markdown st
   /\ audioUrl st' = audioUrl st
   /\ objectUrls st' = objectUrls st
   /\ isLoading st' = isLoading st
   /\ log st' = (log st ++ [EvToast ToastError "Please enter a request."])%list)
  /\ (fetches (AgentImproved.log ist') = fetches (AgentImproved.log ist)
      /\ AgentImproved.markdown ist' = AgentImproved.markdown ist
      /\ AgentImproved.isLoading ist' = AgentImproved.isLoading ist
      /\ AgentImproved.log ist'
         = (AgentImproved.log ist
            ++ [EvPreventDefault; EvToast ToastError "Please enter a request"])%list).
Proof.
  intros H Hi st' ist'. split.
  - subst st'. unfold exec. rewrite (sendText_blank st net H). cbn.
    repeat split. rewrite fetches_app. cbn. apply app_nil_r.
  - subst ist'. unfold exec. rewrite (handleSubmit_blank ist net Hi). cbn.
    repeat split.
    + rewrite !fetches_app. cbn. now rewrite !app_nil_r.
    + now rewrite <- app_assoc.
Qed.

Lemma blank_query_rejected_locally_witness :
  fetches (log (exec (AgentUnified.sendText (Throw (TypeError "Failed to fetch")))
                  showing_reply_blank_query)) = []
  /\ displayed_audio (exec (AgentUnified.sendText (Throw (TypeError "Failed to fetch")))
                        showing_reply_blank_query) = Some speech.
Proof.
  pose proof (blank_query_rejected_locally showing_reply_blank_query
                {| AgentImproved.input := EmptyString;
                   AgentImproved.markdown := JStr EmptyString;
                   AgentImproved.isLoading := false;
                   AgentImproved.log := [] |}
                (Throw (TypeError "Failed to fetch")) eq_refl eq_refl) as H.
  cbv zeta in H. destruct H as [(Hf & _ & Ha & Hu & _) _].
  split.
  - exact Hf.
  - unfold displayed_audio. rewrite Ha, Hu. reflexivity.
Defined.

(* ------------------------------------------------------------------ *)
(** ** Replies on the text-only path *)




(** A field whose value is [null] counts as missing: the next field in
    the order is taken. *)
Example null_result_falls_through :
  AgentImproved.resolve_text (JObj [("result", JNull); ("output", JStr "B")])
  = Ok (JStr "B").
Proof. reflexivity. Qed.

(** The pretty-printed form of an object with two fields. *)
Example stringify_pretty_two_fields :
  Json.stringify_pretty (JObj [("error", JStr "bad request"); ("code", JNum "400")])
  = "{" ++ Json.newline
    ++ "  " ++ Json.quote "error" ++ ": " ++ Json.quote "bad request" ++ ","
    ++ Json.newline
    ++ "  " ++ Json.quote "code" ++ ": 400" ++ Json.newline ++ "}".
Proof. reflexivity. Qed.

(* ------------------------------------------------------------------ *)
(** ** Failing requests *)

(** C2 (as stated, refuted).  The status is 500 with no reason phrase
    and the body is the JSON text of the empty object.  The
    specification announces the raw body as the message; [sendAudio] and
    [sendText] throw an [Error] with the empty message, and the toast
    falls back to its fixed text. *)
Lemma backend_error_message_counterexample :
  ok reply_500 = false
  /\ spec_error_message reply_500 = "{}"
  /\ outcome (AgentUnified.exchange_try (Ok reply_500)) initial
     = Throw (Error EmptyString)
  /\ outcome (AgentUnified.exchange_try (Ok reply_500)) initial
     <> Throw (Error (spec_error_message reply_500))
  /\ log (exec (AgentUnified.sendAudio clip (Ok reply_500)) initial)
     = [EvFetch (audio_request clip); EvToast ToastError "Request failed"].
Proof.
  repeat split; try reflexivity.
  intro H. discriminate H.
Qed.

(** C2 (amended).  For a reply with a non-success status whose body
    parses as JSON, [sendAudio] and [sendText] throw an [Error] whose
    message is the [error] field of the body, as a string, when that
    field is truthy, and the status text otherwise; nothing of the state
    changes before the throw; the toast shows the message, or
    "Request failed" when the message is empty; the raw text of the body
    plays no part. *)
Theorem backend_error_message (st : State) (res : Response) (data : json) :
  ok res = false ->
  bodyJson res = Ok data ->
  let message := string_or (prop_opt data "error") (statusText res) in
  AgentUnified.exchange_try (Ok res) st = (Throw (Error message), st)
  /\ AgentAudio.sendAudio_try (Ok res) st = (Throw (Error message), st)
  /\ log (exec (AgentUnified.exchange_settle (Ok res)) st)
     = (log st ++ [EvToast ToastError (Str.or_else message "Request failed")])%list
  /\ (forall e, data = JObj [("error", JStr e)] -> Str.truthy e = true ->
      message = e)
  /\ (prop_opt data "error" = None -> message = statusText res)
  /\ (forall raw,
        AgentUnified.exchange_try
          (Ok {| status := status res; statusText := statusText res;
                 contentType := contentType res; bodyText := raw;
                 bodyJson := bodyJson res |}) st
        = AgentUnified.exchange_try (Ok res) st).
Proof.
  intros Hok Hbody message.
  assert (E1 : AgentUnified.exchange_try (Ok res) st = (Throw (Error message), st)).
  { unfold AgentUnified.exchange_try. run. rewrite Hbody. run.
    rewrite Hok. reflexivity. }
  split; [exact E1|]. split; [|split; [|split; [|split]]].
  - unfold AgentAudio.sendAudio_try. run. rewrite Hbody. run.
    rewrite Hok. reflexivity.
  - unfold AgentUnified.exchange_settle.
    unfold exec, try_finally, try_catch. rewrite E1. reflexivity.
  - intros e -> He. subst message. cbn. now rewrite He.
  - intros Hnone. subst message. now rewrite Hnone.
  - intro raw. rewrite E1.
    unfold AgentUnified.exchange_try. run. rewrite Hbody. run.
    unfold ok in *. cbn [status]. rewrite Hok. reflexivity.
Qed.

Lemma backend_error_message_witness :
  AgentUnified.exchange_try (Ok reply_bad_request) showing_reply
  = (Throw (Error "bad request"), showing_reply).
Proof.
  exact (proj1 (backend_error_message showing_reply reply_bad_request
                  (JObj [("error", JStr "bad request")]) eq_refl eq_refl)).
Defined.

(** A failing reply whose body is not JSON never reaches the status
    test in [sendAudio] and [sendText]: what is thrown is the error of
    [res.json()]. *)
Lemma backend_error_unparsable_body (st : State) (res : Response) (e : exn) :
  bodyJson res = Throw e ->
  AgentUnified.exchange_try (Ok res) st = (Throw e, st)
  /\ AgentAudio.sendAudio_try (Ok res) st = (Throw e, st).
Proof.
  intro H. unfold AgentUnified.exchange_try, AgentAudio.sendAudio_try.
  run. rewrite H. split; reflexivity.
Qed.

(** On the text-only path the message of a failing reply is the text
    resolved from the reply, so a JSON body with an [error] field comes
    out as the pretty-printed object; a body that is not JSON comes out
    raw, and an empty one as the status code. *)
Lemma fetchEvents_error_message :
  outcome (AgentImproved.fetchEvents_try (Ok reply_bad_request)) improved_initial
  = Throw (Error (Json.stringify_pretty (JObj [("error", JStr "bad request")])))
  /\ outcome (AgentImproved.fetchEvents_try
                (Ok {| status := 502; statusText := "Bad Gateway";
                       contentType := Some "text/plain";
                       bodyText := "upstream down";
                       bodyJson := Throw {| exn_name := "SyntaxError";
                                            exn_message := "Unexpected token" |} |}))
       improved_initial
     = Throw (Error "upstream down")
  /\ outcome (AgentImproved.fetchEvents_try
                (Ok {| status := 502; statusText := "Bad Gateway";
                       contentType := None;
                       bodyText := EmptyString;
                       bodyJson := Throw {| exn_name := "SyntaxError";
                                            exn_message := "Unexpected end" |} |}))
       improved_initial
     = Throw (Error "HTTP 502").
Proof. repeat split. Qed.

(** C8 (as stated, refuted).  The reply is a success with a text and
    with audio that is not base64.  The text is shown, then decoding
    throws: the attempt ends in the error toast, and the summary shown
    before is gone. *)
Lemma failed_attempt_counterexample :
  outcome (AgentUnified.exchange_try (Ok reply_bad_audio))
    (exec (AgentUnified.sendAudio_begin clip) showing_reply)
  = Throw InvalidCharacterError
  /\ log (exec (AgentUnified.sendAudio clip (Ok reply_bad_audio)) showing_reply)
     = [EvFetch (audio_request clip);
        EvToast ToastError "The string to be decoded is not correctly encoded."]
  /\ markdown showing_reply = JStr "Meeting at 10"
  /\ markdown (exec (AgentUnified.sendAudio clip (Ok reply_bad_audio)) showing_reply)
     = JStr "No events"
  /\ markdown (exec (AgentUnified.sendAudio clip (Ok reply_bad_audio)) showing_reply)
     <> markdown showing_reply
  /\ markdown (exec (AgentAudio.sendAudio clip (Ok reply_bad_audio)) showing_reply)
     <> markdown showing_reply.
Proof.
  repeat split; try reflexivity; intro H; discriminate H.
Qed.

Lemma rejected_exchange_try (net : result Response) (s : State) :
  rejected net = true ->
  exists e, AgentUnified.exchange_try net s = (Throw e, s)
            /\ AgentAudio.sendAudio_try net s = (Throw e, s).
Proof.
  unfold rejected, AgentUnified.exchange_try, AgentAudio.sendAudio_try.
  destruct net as [res|e]; run.
  - destruct (bodyJson res) as [data|e]; run.
    + intro H. rewrite H. eexists. split; reflexivity.
    + intros _. eexists. split; reflexivity.
  - intros _. eexists. split; reflexivity.
Qed.

(** C8 (amended).  When an attempt fails before the reply is looked at
    (the request does not complete, the body is not JSON, or the status
    is not a success), the summary shown before stays, no clip is shown,
    the loading flag is down, and the recording side of the component
    and the typed query are as before. *)
Theorem failed_request_frame
  (st : State) (blob : Blob) (net : result Response) :
  rejected net = true ->
  failure_frame st (exec (AgentAudio.sendAudio blob net) st)
  /\ failure_frame st (exec (AgentUnified.sendAudio blob net) st)
  /\ (Str.blank (textQuery st) = false ->
      failure_frame st (exec (AgentUnified.sendText net) st)).
Proof.
  intro H. split; [|split].
  - unfold AgentAudio.sendAudio, AgentAudio.sendAudio_begin,
      AgentAudio.sendAudio_settle.
    run. destruct (Str.truthy (audioUrl st)); run;
    match goal with
    | |- context [AgentAudio.sendAudio_try net ?s] =>
        destruct (rejected_exchange_try net s H) as (e & _ & E); rewrite E
    end;
    unfold failure_frame, displayed_audio; run; repeat split.
  - unfold AgentUnified.sendAudio, AgentUnified.sendAudio_begin,
      AgentUnified.exchange_settle.
    run.
    match goal with
    | |- context [AgentUnified.exchange_try net ?s] =>
        destruct (rejected_exchange_try net s H) as (e & E & _); rewrite E
    end.
    unfold failure_frame, displayed_audio. run. repeat split.
  - intro Hq. unfold exec. rewrite (sendText_not_blank st net Hq).
    unfold AgentUnified.exchange_settle.
    run.
    match goal with
    | |- context [AgentUnified.exchange_try net ?s] =>
        destruct (rejected_exchange_try net s H) as (e & E & _); rewrite E
    end.
    unfold failure_frame, displayed_audio. run. repeat split.
Qed.

Lemma failed_request_frame_witness :
  failure_frame showing_reply
    (exec (AgentUnified.sendText (Ok reply_bad_request)) showing_reply).
Proof.
  exact (proj2 (proj2 (failed_request_frame showing_reply clip
                         (Ok reply_bad_request) eq_refl)) eq_refl).
Defined.

(* ------------------------------------------------------------------ *)
(** ** Successful requests *)

(** C9 (as stated, refuted).  The reply is a success that carries audio
    and no text.  The clip is the one of the reply, but the summary
    shown next to it is still the one of the reply before: the same
    request and the same reply show another summary when another reply
    came before. *)
Lemma fresh_reply_counterexample :
  succeeds (Ok reply_audio_only) = true
  /\ markdown showing_reply = JStr "Meeting at 10"
  /\ markdown (exec (AgentUnified.sendAudio clip (Ok reply_audio_only)) showing_reply)
     = JStr "Meeting at 10"
  /\ markdown (exec (AgentAudio.sendAudio clip (Ok reply_audio_only)) showing_reply)
     = JStr "Meeting at 10"
  /\ displayed_audio
       (exec (AgentUnified.sendAudio clip (Ok reply_audio_only)) showing_reply)
     = Some speech
  /\ markdown (exec (AgentUnified.sendAudio clip (Ok reply_audio_only)) showing_reply)
     <> markdown (exec (AgentUnified.sendAudio clip (Ok reply_audio_only)) initial).
Proof.
  repeat split; try reflexivity. intro H. discriminate H.
Qed.

Lemma truthy_url_of (n : N) : Str.truthy (url_of n) = true.
Proof. reflexivity. Qed.

Lemma find_url_head (u : string) (b : Blob) (l : list (string * Blob)) :
  find_url u ((u, b) :: l) = Some b.
Proof. simpl. now rewrite String.eqb_refl. Qed.

(** What the [try] block leaves when it runs to its end, no clip being
    shown when it starts: in the unified component, and in the
    voice-only one. *)
Lemma try_display (res : Response) (data : json) (s : State) :
  succeeds (Ok res) = true ->
  bodyJson res = Ok data ->
  audioUrl s = EmptyString ->
  (let s' := exec (AgentUnified.exchange_try (Ok res)) s in
   outcome (AgentUnified.exchange_try (Ok res)) s = Ok tt
   /\ markdown s' = reply_markdown data (markdown s)
   /\ displayed_audio s' = reply_audio data
   /\ log s' = log s)
  /\ (let s' := exec (AgentAudio.sendAudio_try (Ok res)) s in
      outcome (AgentAudio.sendAudio_try (Ok res)) s = Ok tt
      /\ markdown s' = reply_markdown data (markdown s)
      /\ displayed_audio s' = reply_audio data
      /\ log s' = (log s ++ [EvToast ToastSuccess "Response ready"])%list).
Proof.
  intros H Hbody Hu.
  unfold succeeds, AgentUnified.exchange_try, AgentAudio.sendAudio_try,
    AgentUnified.handleBackendJson, reply_markdown, reply_audio,
    displayed_audio in *.
  run. run in H. rewrite Hbody in H |- *. run. run in H.
  destruct (ok res); run; run in H; [|discriminate H].
  destruct data as [| b | n | str | items | fields]; cbn [prop prop_opt] in *;
    run; run in H; try discriminate H;
    try (rewrite Hu; repeat split; reflexivity).
  destruct (Json.lookup "text" fields) as [t|]; run; run in H.
  all: try destruct (Json.truthy t); run; run in H.
  all: destruct (Json.lookup "audio_b64" fields) as [a|]; run; run in H.
  all: try destruct (Json.truthy a); run; run in H.
  all: try destruct (base64ToBlob_any a _) as [blob|e]; run; run in H.
  all: cbn [initial audioUrl] in H; run in H; try discriminate H.
  all: repeat (progress (rewrite ?Hu; run)).
  all: rewrite ?truthy_url_of, ?find_url_head; repeat split; reflexivity.
Qed.

(** C9 (amended).  After a successful attempt the clip shown is the one
    carried by the reply of that attempt, or none when the reply carries
    none; the summary shown is the text of the reply when that text is
    truthy, and otherwise the summary that was shown before the attempt;
    the loading flag is down. *)
Theorem successful_reply_display
  (st : State) (blob : Blob) (res : Response) (data : json) :
  succeeds (Ok res) = true ->
  bodyJson res = Ok data ->
  (let st' := exec (AgentUnified.sendAudio blob (Ok res)) st in
   markdown st' = reply_markdown data (markdown st)
   /\ displayed_audio st' = reply_audio data
   /\ isLoading st' = false)
  /\ (let st' := exec (AgentAudio.sendAudio blob (Ok res)) st in
      markdown st' = reply_markdown data (markdown st)
      /\ displayed_audio st' = reply_audio data
      /\ isLoading st' = false)
  /\ (Str.blank (textQuery st) = false ->
      let st' := exec (AgentUnified.sendText (Ok res)) st in
      markdown st' = reply_markdown data (markdown st)
      /\ displayed_audio st' = reply_audio data
      /\ isLoading st' = false).
Proof.
  intros H Hbody. split; [|split].
  - unfold AgentUnified.sendAudio, AgentUnified.sendAudio_begin,
      AgentUnified.exchange_settle.
    run.
    match goal with
    | |- context [AgentUnified.exchange_try (Ok res) ?s] =>
        destruct (try_display res data s H Hbody eq_refl)
          as [(Ho & Hm & Ha & _) _];
        unfold exec, outcome in Ho, Hm, Ha;
        destruct (AgentUnified.exchange_try (Ok res) s) as [r s1]
    end.
    cbn [fst snd] in *. subst r. unfold displayed_audio in *. run.
    repeat split; assumption.
  - unfold AgentAudio.sendAudio, AgentAudio.sendAudio_begin,
      AgentAudio.sendAudio_settle.
    run. destruct (Str.truthy (audioUrl st)); run;
    match goal with
    | |- context [AgentAudio.sendAudio_try (Ok res) ?s] =>
        destruct (try_display res data s H Hbody eq_refl)
          as [_ (Ho & Hm & Ha & _)];
        unfold exec, outcome in Ho, Hm, Ha;
        destruct (AgentAudio.sendAudio_try (Ok res) s) as [r s1]
    end;
    cbn [fst snd] in *; subst r; unfold displayed_audio in *; run;
    repeat split; assumption.
  - intro Hq. unfold exec. rewrite (sendText_not_blank st (Ok res) Hq).
    unfold AgentUnified.exchange_settle.
    run.
    match goal with
    | |- context [AgentUnified.exchange_try (Ok res) ?s] =>
        destruct (try_display res data s H Hbody eq_refl)
          as [(Ho & Hm & Ha & _) _];
        unfold exec, outcome in Ho, Hm, Ha;
        destruct (AgentUnified.exchange_try (Ok res) s) as [r s1]
    end.
    cbn [fst snd] in *. subst r. unfold displayed_audio in *. run.
    repeat split; assumption.
Qed.

Lemma successful_reply_display_witness :
  markdown (exec (AgentUnified.sendAudio clip (Ok reply_full)) showing_reply)
  = JStr "No events"
  /\ displayed_audio
       (exec (AgentUnified.sendAudio clip (Ok reply_full)) showing_reply)
     = Some speech.
Proof.
  pose proof (proj1 (successful_reply_display showing_reply clip reply_full
                       (JObj [("text", JStr "No events");
                              ("audio_b64", JStr "SUQzBAA=")])
                       eq_refl eq_refl)) as H.
  cbv zeta in H. destruct H as (Hm & Ha & _).
  split.
  - exact Hm.
  - exact Ha.
Defined.

(* ------------------------------------------------------------------ *)
(** ** Releasing the device *)

(** When the recording holds bytes, the [stop] handler of either
    revision stops every track of the stream, whatever becomes of the
    request. *)
Lemma recorded_clip_releases_tracks
  (st : State) (recorder : MediaRecorder) (net : result Response) :
  recorded_size st <> 0%N ->
  held_tracks (exec (AgentAudio.onstop recorder net) st)
  = List.map (fun _ => Ended) (held_tracks st)
  /\ held_tracks (exec (AgentUnified.onstop recorder net) st)
     = List.map (fun _ => Ended) (held_tracks st).
Proof.
  intro H.
  assert (E : forall t, (Blobs.size (Blobs.make (chunksRef st) t) =? 0)%N = false).
  { intro t. apply N.eqb_neq. exact H. }
  split.
  - unfold AgentAudio.onstop, AgentAudio.sendAudio_begin.
    run. rewrite E. run.
    destruct (Str.truthy (audioUrl st)); run;
      match goal with
      | |- held_tracks (snd (AgentAudio.sendAudio_settle net ?s)) = _ =>
          destruct (keeps_sendAudio_settle net s) as (_ & _ & _ & Hr & _);
          unfold exec in Hr; unfold held_tracks; rewrite Hr
      end;
      cbn [mediaRecorderRef]; destruct (mediaRecorderRef st); reflexivity.
  - unfold AgentUnified.onstop, AgentUnified.sendAudio_begin.
    run. rewrite E. run.
    match goal with
    | |- held_tracks (snd (AgentUnified.exchange_settle net ?s)) = _ =>
        destruct (keeps_exchange_settle net s) as (_ & _ & _ & Hr & _);
        unfold exec in Hr; unfold held_tracks; rewrite Hr
    end.
    cbn [mediaRecorderRef]. destruct (mediaRecorderRef st); reflexivity.
Qed.

(** In general: whenever the browser offers [getUserMedia] and the
    permission is not denied, the unified [startRecording] asks for the
    device, secure context or not. *)
Lemma unified_startRecording_ignores_context (env : Env) (st : State) :
  hasGetUserMedia env = true ->
  is_denied (queryMicPermission env) = false ->
  exists rest,
    log (exec (AgentUnified.startRecording env) st)
    = (log st ++ EvGetUserMedia :: rest)%list.
Proof.
  intros Hg Hd.
  unfold AgentUnified.startRecording, open_recorder. rewrite Hg, Hd. run.
  destruct (getUserMedia env) as [stream|e]; run.
  - destruct (recorderConstructor env) as [e|]; run.
    + rewrite <- app_assoc. eexists. reflexivity.
    + destruct (recorderStart env) as [e|]; run;
        rewrite <- app_assoc; eexists; reflexivity.
  - rewrite <- app_assoc. eexists. reflexivity.
Qed.

(* ================================================================== *)
(** * Further properties of the components *)

(** ** Starting a recording *)

Lemma device_requests_app (l1 l2 : list event) :
  device_requests (l1 ++ l2)%list = device_requests l1 + device_requests l2.
Proof.
  induction l1 as [|e l1 IH]; simpl.
  - reflexivity.
  - destruct e; simpl; now rewrite IH.
Qed.

Lemma toasts_app (l1 l2 : list event) :
  toasts (l1 ++ l2)%list = (toasts l1 ++ toasts l2)%list.
Proof.
  induction l1 as [|e l1 IH]; simpl.
  - reflexivity.
  - destruct e; simpl; now rewrite IH.
Qed.

(** Splits the run of [startRecording] along what the browser answers. *)
Ltac start_cases env :=
  unfold AgentAudio.startRecording, AgentUnified.startRecording, open_recorder;
  destruct (isSecureContextOrLocal env) eqn:?;
  destruct (hasGetUserMedia env) eqn:?;
  destruct (is_denied (queryMicPermission env)) eqn:?;
  run;
  try (destruct (getUserMedia env) as [?stream|?e] eqn:?; run);
  try (destruct (recorderConstructor env) as [?e|] eqn:?; run);
  try (destruct (recorderStart env) as [?e|] eqn:?; run).

(** X1.  [startRecording] asks for the device exactly once when its
    tests pass and not at all otherwise: the voice-only component tests
    the context, the presence of [getUserMedia] and the permission, the
    unified component the last two. *)
Theorem startRecording_device_requests (env : Env) (st : State) :
  device_requests (log (exec (AgentAudio.startRecording env) st))
  = device_requests (log st) + (if voice_guards env then 1 else 0)
  /\ device_requests (log (exec (AgentUnified.startRecording env) st))
     = device_requests (log st) + (if unified_guards env then 1 else 0).
Proof.
  unfold voice_guards, unified_guards.
  split; start_cases env;
    repeat rewrite device_requests_app; cbn [device_requests andb negb]; lia.
Qed.

(** X2.  Whatever the browser answers, [startRecording] sends nothing to
    the backend and leaves the summary, the clip, the live object URLs
    and the loading flag as they were, in both components. *)
Theorem startRecording_frame (env : Env) (st : State) :
  (let st' := exec (AgentAudio.startRecording env) st in
   fetches (log st') = fetches (log st)
   /\ markdown st' = markdown st /\ audioUrl st' = audioUrl st
   /\ objectUrls st' = objectUrls st /\ isLoading st' = isLoading st)
  /\ (let st' := exec (AgentUnified.startRecording env) st in
      fetches (log st') = fetches (log st)
      /\ markdown st' = markdown st /\ audioUrl st' = audioUrl st
      /\ objectUrls st' = objectUrls st /\ isLoading st' = isLoading st).
Proof.
  split; cbv zeta; start_cases env;
    repeat rewrite fetches_app; cbn [fetches]; rewrite ?app_nil_r;
    repeat split; reflexivity.
Qed.

(** X3.  When the tests pass, the device gives a stream and the recorder
    starts, the component is recording: the flag is up, the chunks of
    any earlier recording are gone, and the recorder held is recording
    that stream as Opus when the browser supports it and as plain WebM
    otherwise.  The voice-only component announces it with a success
    toast, the unified one with a plain toast. *)
Theorem startRecording_started (env : Env) (st : State) (stream : list track_state) :
  hasGetUserMedia env = true ->
  is_denied (queryMicPermission env) = false ->
  getUserMedia env = Ok stream ->
  recorderConstructor env = None ->
  recorderStart env = None ->
  (isSecureContextOrLocal env = true ->
   let st' := exec (AgentAudio.startRecording env) st in
   isRecording st' = true /\ chunksRef st' = []
   /\ mediaRecorderRef st' = Some (new_recorder env stream)
   /\ log st' = (log st ++ [EvGetUserMedia; EvToast ToastSuccess "Recording…"])%list)
  /\ (let st' := exec (AgentUnified.startRecording env) st in
      isRecording st' = true /\ chunksRef st' = []
      /\ mediaRecorderRef st' = Some (new_recorder env stream)
      /\ log st' = (log st ++ [EvGetUserMedia; EvToast ToastPlain "Recording…"])%list).
Proof.
  intros Hg Hd Hs Hc Hr. unfold new_recorder, with_state.
  split; [intro Hsec|]; cbv zeta;
    unfold AgentAudio.startRecording, AgentUnified.startRecording, open_recorder;
    rewrite ?Hsec, Hg, Hd; run; rewrite Hs; run; rewrite Hc; run;
    rewrite Hr; run; rewrite <- app_assoc; repeat split; reflexivity.
Qed.

Lemma startRecording_started_witness :
  mediaRecorderRef (exec (AgentAudio.startRecording good_env) running_session)
  = Some {| rec_mimeType := "audio/webm"; rec_state := Recording;
            rec_stream := [Live] |}
  /\ chunksRef (exec (AgentAudio.startRecording good_env) running_session) = [].
Proof.
  pose proof (proj1 (startRecording_started good_env running_session [Live]
                       eq_refl eq_refl eq_refl eq_refl eq_refl) eq_refl) as H.
  cbv zeta in H. destruct H as (_ & Hc & Hr & _).
  split; [exact Hr | exact Hc].
Defined.

(** X4.  When the device request is turned down, the component is left
    as it was but for one error toast: the flag, the recorder held and
    the chunks do not change, and the toast reads the message of the
    rejection, or the fixed text of the component when that message is
    empty. *)
Theorem startRecording_device_refused (env : Env) (st : State) (e : exn) :
  hasGetUserMedia env = true ->
  is_denied (queryMicPermission env) = false ->
  getUserMedia env = Throw e ->
  (isSecureContextOrLocal env = true ->
   let st' := exec (AgentAudio.startRecording env) st in
   isRecording st' = isRecording st
   /\ mediaRecorderRef st' = mediaRecorderRef st
   /\ chunksRef st' = chunksRef st
   /\ log st' = (log st ++ [EvGetUserMedia;
                            EvToast ToastError
                              (Str.or_else (exn_message e) "Recording failed.")])%list)
  /\ (let st' := exec (AgentUnified.startRecording env) st in
      isRecording st' = isRecording st
      /\ mediaRecorderRef st' = mediaRecorderRef st
      /\ chunksRef st' = chunksRef st
      /\ log st' = (log st ++ [EvGetUserMedia;
                               EvToast ToastError
                                 (Str.or_else (exn_message e)
                                    "Cannot start recording.")])%list).
Proof.
  intros Hg Hd Hs.
  split; [intro Hsec|]; cbv zeta;
    unfold AgentAudio.startRecording, AgentUnified.startRecording, open_recorder;
    rewrite ?Hsec, Hg, Hd; run; rewrite Hs; run;
    rewrite <- app_assoc; repeat split; reflexivity.
Qed.

Lemma startRecording_device_refused_witness :
  log (exec (AgentUnified.startRecording insecure_env) initial)
  = [EvGetUserMedia; EvToast ToastError "Permission denied"].
Proof.
  pose proof (proj2 (startRecording_device_refused insecure_env initial
                       {| exn_name := "NotAllowedError";
                          exn_message := "Permission denied" |}
                       eq_refl eq_refl eq_refl)) as H.
  cbv zeta in H. destruct H as (_ & _ & _ & Hl). exact Hl.
Defined.

(** X5.  When [recorder.start()] throws, the stream that was just
    obtained is not given back: the component is not recording, shows
    the error toast, and holds an inactive recorder whose tracks are as
    the device handed them over; the chunks of any earlier recording are
    gone all the same. *)
Theorem startRecording_start_throws
  (env : Env) (st : State) (stream : list track_state) (e : exn) :
  hasGetUserMedia env = true ->
  is_denied (queryMicPermission env) = false ->
  getUserMedia env = Ok stream ->
  recorderConstructor env = None ->
  recorderStart env = Some e ->
  (isSecureContextOrLocal env = true ->
   let st' := exec (AgentAudio.startRecording env) st in
   isRecording st' = isRecording st
   /\ held_tracks st' = stream
   /\ option_map rec_state (mediaRecorderRef st') = Some Inactive
   /\ chunksRef st' = []
   /\ toasts (log st')
      = (toasts (log st)
         ++ [(ToastError, Str.or_else (exn_message e) "Recording failed.")])%list)
  /\ (let st' := exec (AgentUnified.startRecording env) st in
      isRecording st' = isRecording st
      /\ held_tracks st' = stream
      /\ option_map rec_state (mediaRecorderRef st') = Some Inactive
      /\ chunksRef st' = []
      /\ toasts (log st')
         = (toasts (log st)
            ++ [(ToastError,
                 Str.or_else (exn_message e) "Cannot start recording.")])%list).
Proof.
  intros Hg Hd Hs Hc Hr.
  split; [intro Hsec|]; cbv zeta;
    unfold AgentAudio.startRecording, AgentUnified.startRecording, open_recorder;
    rewrite ?Hsec, Hg, Hd; run; rewrite Hs; run; rewrite Hc; run;
    rewrite Hr; run; repeat rewrite toasts_app; cbn [toasts];
    rewrite ?app_nil_r; repeat split; reflexivity.
Qed.

Lemma startRecording_start_throws_witness :
  held_tracks (exec (AgentAudio.startRecording stubborn_env) initial) = [Live; Live]
  /\ toasts (log (exec (AgentAudio.startRecording stubborn_env) initial))
     = [(ToastError, "Recording failed.")].
Proof.
  pose proof (proj1 (startRecording_start_throws stubborn_env initial
                       [Live; Live]
                       {| exn_name := "NotSupportedError";
                          exn_message := EmptyString |}
                       eq_refl eq_refl eq_refl eq_refl eq_refl) eq_refl) as H.
  cbv zeta in H. destruct H as (_ & Ht & _ & _ & Hl).
  split; [exact Ht | exact Hl].
Defined.

(** ** Stopping a recording *)

Lemma size_zero_bytes (b : Blob) : Blobs.size b = 0%N -> blob_bytes b = [].
Proof.
  unfold Blobs.size. destruct (blob_bytes b); simpl; [reflexivity | lia].
Qed.

Lemma size_make (parts : list Blob) (t : string) :
  Blobs.size (Blobs.make parts t)
  = N.of_nat (List.length (List.concat (List.map blob_bytes parts))).
Proof. reflexivity. Qed.

Lemma ondataavailable_bytes (data : Blob) (st : State) :
  recorded_bytes (exec (ondataavailable data) st)
  = (recorded_bytes st ++ blob_bytes data)%list.
Proof.
  unfold ondataavailable, recorded_bytes.
  destruct (N.eqb_spec (Blobs.size data) 0) as [E|E]; run.
  - now rewrite (size_zero_bytes data E), app_nil_r.
  - rewrite map_app, concat_app. cbn. now rewrite app_nil_r.
Qed.

(** X6.  A chunk that arrives is put after the chunks gathered before,
    and an empty chunk is dropped: either way the bytes gathered are
    those gathered before followed by the bytes of the chunk. *)
Theorem ondataavailable_appends (data : Blob) (st : State) :
  recorded_bytes (exec (ondataavailable data) st)
  = (recorded_bytes st ++ blob_bytes data)%list
  /\ (Blobs.size data = 0%N -> exec (ondataavailable data) st = st)
  /\ (Blobs.size data <> 0%N ->
      chunksRef (exec (ondataavailable data) st) = (chunksRef st ++ [data])%list).
Proof.
  unfold ondataavailable, recorded_bytes.
  destruct (N.eqb_spec (Blobs.size data) 0) as [E|E]; run.
  - rewrite (size_zero_bytes data E), app_nil_r.
    repeat split; congruence.
  - rewrite map_app, concat_app. cbn. rewrite app_nil_r.
    repeat split; congruence.
Qed.

Lemma ondataavailable_appends_witness :
  chunksRef (exec (ondataavailable speech) running_session) = [clip; speech]
  /\ exec (ondataavailable empty_blob) running_session = running_session.
Proof.
  split.
  - apply (proj2 (proj2 (ondataavailable_appends speech running_session))).
    discriminate.
  - apply (proj1 (proj2 (ondataavailable_appends empty_blob running_session))).
    reflexivity.
Defined.

(** X7.  [stopRecording] on a component that holds no recorder, or one
    that is not recording, only lowers the recording flag: nothing is
    sent, nothing is shown, the chunks and the recorder stay. *)
Theorem stopRecording_idle (st : State) (data : Blob) (net : result Response) :
  option_map rec_state (mediaRecorderRef st) <> Some Recording ->
  AgentAudio.stopRecording data net st = setRecording false st
  /\ AgentUnified.stopRecording data net st = setRecording false st.
Proof.
  intro H.
  split; [unfold AgentAudio.stopRecording | unfold AgentUnified.stopRecording];
    unfold bind at 1; unfold gets;
    (destruct (mediaRecorderRef st) as [r|]; [|reflexivity]);
    (destruct (rec_state r) eqn:E; [reflexivity|]);
    exfalso; apply H; simpl; now rewrite E.
Qed.

Lemma stopRecording_idle_witness :
  exec (AgentUnified.stopRecording clip (Ok reply_full)) showing_reply
  = showing_reply.
Proof.
  assert (Hidle : option_map rec_state (mediaRecorderRef showing_reply)
                  <> Some Recording) by discriminate.
  unfold exec.
  rewrite (proj2 (stopRecording_idle showing_reply clip (Ok reply_full) Hidle)).
  reflexivity.
Defined.

(** What settling a request leaves of the recording side, read off the
    frame of the settling code. *)
Ltac settled net :=
  match goal with
  | |- context [AgentAudio.sendAudio_settle net ?s] =>
      let H := fresh "Hframe" in
      pose proof (keeps_sendAudio_settle net s) as H;
      unfold exec, settle_frame in H;
      cbn [isRecording mode textQuery mediaRecorderRef chunksRef log] in H;
      destruct H as (?Hrec & _ & _ & ?Href & ?Hch & ?Hf)
  | |- context [AgentUnified.exchange_settle net ?s] =>
      let H := fresh "Hframe" in
      pose proof (keeps_exchange_settle net s) as H;
      unfold exec, settle_frame in H;
      cbn [isRecording mode textQuery mediaRecorderRef chunksRef log] in H;
      destruct H as (?Hrec & _ & _ & ?Href & ?Hch & ?Hf)
  end.

Lemma concat_bytes_nil (parts : list Blob) (t : string) :
  Blobs.size (Blobs.make parts t) = 0%N ->
  List.concat (List.map blob_bytes parts) = [].
Proof.
  rewrite size_make.
  destruct (List.concat (List.map blob_bytes parts)); simpl; [reflexivity | lia].
Qed.

(** X8.  Stopping a recording that has gathered bytes, counting the last
    chunk, sends them in one request: a POST to the endpoint, without
    headers of its own, whose form has the single part [audio], named
    [recording.webm], holding the bytes in the order they were gathered
    under the type of the recorder.  Every track of the stream is
    stopped, and the component is left not recording with an inactive
    recorder, whatever the backend answers. *)
Theorem stopRecording_sends_clip
  (st : State) (recorder : MediaRecorder) (data : Blob) (net : result Response) :
  mediaRecorderRef st = Some recorder ->
  rec_state recorder = Recording ->
  (recorded_bytes st ++ blob_bytes data)%list <> [] ->
  let request :=
    {| req_url := "http://127.0.0.1:8080/assistant";
       req_method := "POST";
       req_headers := [];
       req_body :=
         FormBody
           [ {| part_name := "audio";
                part_blob :=
                  {| blob_bytes := (recorded_bytes st ++ blob_bytes data)%list;
                     blob_type := Blobs.normalize_type (rec_mimeType recorder) |};
                part_filename := "recording.webm" |} ] |} in
  (let st' := exec (AgentAudio.stopRecording data net) st in
   fetches (log st') = (fetches (log st) ++ [request])%list
   /\ held_tracks st' = List.map (fun _ => Ended) (rec_stream recorder)
   /\ isRecording st' = false
   /\ option_map rec_state (mediaRecorderRef st') = Some Inactive)
  /\ (let st' := exec (AgentUnified.stopRecording data net) st in
      fetches (log st') = (fetches (log st) ++ [request])%list
      /\ held_tracks st' = List.map (fun _ => Ended) (rec_stream recorder)
      /\ isRecording st' = false
      /\ option_map rec_state (mediaRecorderRef st') = Some Inactive).
Proof.
  intros Href Hst Hbytes request. subst request.
  pose proof (ondataavailable_bytes data st) as Hb.
  unfold recorded_bytes in *.
  remember (List.concat (List.map blob_bytes (chunksRef st)) ++ blob_bytes data)%list
    as bytes eqn:Ebytes.
  clear Ebytes.
  split; cbv zeta;
    unfold AgentAudio.stopRecording, AgentUnified.stopRecording;
    unfold AgentAudio.onstop, AgentUnified.onstop,
      AgentAudio.sendAudio_begin, AgentUnified.sendAudio_begin;
    run; rewrite Href, Hst; run;
    unfold ondataavailable in *;
    (destruct (N.eqb_spec (Blobs.size data) 0) as [E|E]; run; run in Hb);
    match goal with
    | |- context [(Blobs.size (Blobs.make ?c ?t) =? 0)%N] =>
        destruct (N.eqb_spec (Blobs.size (Blobs.make c t)) 0) as [Z|Z];
          [ apply concat_bytes_nil in Z; exfalso; apply Hbytes;
            rewrite <- Hb; exact Z
          | ]
    end;
    run;
    try (destruct (Str.truthy (audioUrl st)); run);
    settled net;
    unfold held_tracks; rewrite ?Hrec, ?Href0, ?Hf;
    rewrite ?fetches_app; cbn [fetches]; unfold audio_request, audio_form,
      BACKEND_URL, Blobs.make; rewrite Hb;
    repeat split; reflexivity.
Qed.

Lemma stopRecording_sends_clip_witness :
  isRecording (exec (AgentUnified.stopRecording speech
                       (Throw (TypeError "Failed to fetch"))) running_session)
  = false
  /\ held_tracks (exec (AgentUnified.stopRecording speech
                          (Throw (TypeError "Failed to fetch"))) running_session)
     = [Ended].
Proof.
  assert (Hbytes : (recorded_bytes running_session ++ blob_bytes speech)%list <> [])
    by discriminate.
  pose proof (proj2 (stopRecording_sends_clip running_session
                       {| rec_mimeType := "audio/webm"; rec_state := Recording;
                          rec_stream := [Live] |}
                       speech (Throw (TypeError "Failed to fetch"))
                       eq_refl eq_refl Hbytes)) as H.
  cbv zeta in H. destruct H as (_ & Ht & Hr & _).
  split; [exact Hr | exact Ht].
Defined.

(** X9.  After [stopRecording] the component is not recording, whatever
    it held, whatever was recorded and whatever the backend answers. *)
Theorem stopRecording_lowers_flag
  (st : State) (data : Blob) (net : result Response) :
  isRecording (exec (AgentAudio.stopRecording data net) st) = false
  /\ isRecording (exec (AgentUnified.stopRecording data net) st) = false.
Proof.
  split;
    unfold AgentAudio.stopRecording, AgentUnified.stopRecording;
    unfold AgentAudio.onstop, AgentUnified.onstop,
      AgentAudio.sendAudio_begin, AgentUnified.sendAudio_begin, ondataavailable;
    run;
    (destruct (mediaRecorderRef st) as [r|]; run; [|reflexivity]);
    (destruct (rec_state r); run; [reflexivity|]);
    (destruct (Blobs.size data =? 0)%N; run);
    match goal with
    | |- context [(Blobs.size (Blobs.make ?c ?t) =? 0)%N] =>
        destruct (Blobs.size (Blobs.make c t) =? 0)%N
    end;
    run; try reflexivity;
    try (destruct (Str.truthy (audioUrl st)); run);
    settled net; assumption.
Qed.

(** ** How an attempt ends *)

(** Splits a reply along the tests the handlers make on it. *)
Ltac reply_step :=
  match goal with
  | |- context [bodyJson ?r] => destruct (bodyJson r) as [?data|?e] eqn:?
  | |- context [ok ?r] => destruct (ok r) eqn:?
  | |- context [Json.lookup ?k ?f] => destruct (Json.lookup k f) as [?v|] eqn:?
  | |- context [Json.truthy ?t] => destruct (Json.truthy t) eqn:?
  | |- context [base64ToBlob_any ?a ?m] =>
      destruct (base64ToBlob_any a m) as [?decoded|?e] eqn:?
  | |- context [Str.truthy (audioUrl ?s)] => destruct (Str.truthy (audioUrl s)) eqn:?
  end.

Ltac reply_cases := run; repeat (reply_step; run).

(** The [try] blocks of the two components end alike on every reply, and
    whether they throw does not depend on the state they start from;
    they log nothing but the success toast of the voice-only one. *)
Lemma try_blocks_agree (net : result Response) (s : State) :
  let r := match thrown net with None => Ok tt | Some e => Throw e end in
  outcome (AgentUnified.exchange_try net) s = r
  /\ outcome (AgentAudio.sendAudio_try net) s = r
  /\ log (exec (AgentUnified.exchange_try net) s) = log s
  /\ log (exec (AgentAudio.sendAudio_try net) s)
     = (log s ++ match thrown net with
                 | None => [EvToast ToastSuccess "Response ready"]
                 | Some _ => []
                 end)%list.
Proof.
  unfold thrown, AgentUnified.exchange_try, AgentAudio.sendAudio_try,
    AgentUnified.handleBackendJson.
  destruct net as [res|e]; run; [|rewrite app_nil_r; repeat split; reflexivity].
  destruct (bodyJson res) as [data|e]; run;
    [|rewrite app_nil_r; repeat split; reflexivity].
  destruct (ok res); run; [|rewrite app_nil_r; repeat split; reflexivity].
  destruct data as [| b | n | str | items | fields]; cbn [prop prop_opt];
    run; rewrite ?app_nil_r; try (repeat split; reflexivity).
  cbn [initial audioUrl].
  reply_cases; rewrite ?app_nil_r; repeat split; reflexivity.
Qed.

(** Names the state and the outcome of the [try] block in the goal and
    brings in what [try_blocks_agree] says of them. *)
Ltac tried net :=
  match goal with
  | |- context [AgentUnified.exchange_try net ?s] =>
      let Ho := fresh "Ho" in
      let Hl := fresh "Hl" in
      pose proof (try_blocks_agree net s) as (Ho & _ & Hl & _);
      unfold outcome, exec in Ho, Hl;
      destruct (AgentUnified.exchange_try net s) as [?r ?s1];
      cbn [fst snd log] in Ho, Hl; subst
  | |- context [AgentAudio.sendAudio_try net ?s] =>
      let Ho := fresh "Ho" in
      let Hl := fresh "Hl" in
      pose proof (try_blocks_agree net s) as (_ & Ho & _ & Hl);
      unfold outcome, exec in Ho, Hl;
      destruct (AgentAudio.sendAudio_try net s) as [?r ?s1];
      cbn [fst snd log] in Ho, Hl; subst
  end.

(** X10.  Every attempt ends with the loading flag down.  The unified
    component shows no toast when the attempt succeeds and one error
    toast when it fails; the voice-only component shows one toast either
    way, "Response ready" on success.  The error toast reads the message
    of what was thrown, or "Request failed" when that message is
    empty. *)
Theorem attempt_ends (st : State) (blob : Blob) (net : result Response) :
  let error_toast e :=
    (ToastError, Str.or_else (exn_message e) "Request failed") in
  (let st' := exec (AgentUnified.sendAudio blob net) st in
   isLoading st' = false
   /\ toasts (log st')
      = (toasts (log st)
         ++ match thrown net with None => [] | Some e => [error_toast e] end)%list)
  /\ (Str.blank (textQuery st) = false ->
      let st' := exec (AgentUnified.sendText net) st in
      isLoading st' = false
      /\ toasts (log st')
         = (toasts (log st)
            ++ match thrown net with None => [] | Some e => [error_toast e] end)%list)
  /\ (let st' := exec (AgentAudio.sendAudio blob net) st in
      isLoading st' = false
      /\ toasts (log st')
         = (toasts (log st)
            ++ [match thrown net with
                | None => (ToastSuccess, "Response ready")
                | Some e => error_toast e
                end])%list).
Proof.
  intro error_toast. subst error_toast. split; [|split].
  - cbv zeta.
    unfold AgentUnified.sendAudio, AgentUnified.sendAudio_begin,
      AgentUnified.exchange_settle.
    run. tried net. destruct (thrown net); run; rewrite Hl;
      repeat rewrite toasts_app; cbn [toasts]; rewrite ?app_nil_r;
      split; reflexivity.
  - intro Hq. cbv zeta. unfold exec.
    rewrite (sendText_not_blank st net Hq).
    unfold AgentUnified.exchange_settle.
    run. tried net. destruct (thrown net); run; rewrite Hl;
      repeat rewrite toasts_app; cbn [toasts]; rewrite ?app_nil_r;
      split; reflexivity.
  - cbv zeta.
    unfold AgentAudio.sendAudio, AgentAudio.sendAudio_begin,
      AgentAudio.sendAudio_settle.
    run. destruct (Str.truthy (audioUrl st)); run; tried net;
      destruct (thrown net); run; rewrite Hl;
      repeat rewrite toasts_app; cbn [toasts]; rewrite ?app_nil_r;
      split; reflexivity.
Qed.

Lemma attempt_ends_witness :
  toasts (log (exec (AgentUnified.sendText (Ok reply_bad_request)) showing_reply))
  = [(ToastError, "bad request")].
Proof.
  pose proof (proj1 (proj2 (attempt_ends showing_reply clip (Ok reply_bad_request)))
                eq_refl) as H.
  cbv zeta in H. destruct H as (_ & H). exact H.
Defined.

(** ** The clip of a reply *)

Lemma base64ToBlob_carried (audio : string) (buf : list byte) (mime : string) :
  carries audio buf ->
  base64ToBlob audio mime = Ok (Blobs.of_bytes buf mime)
  /\ Str.truthy audio = true.
Proof.
  pose proof (Base64Facts.btoa_no_comma (string_of_list_byte buf)) as Hc.
  pose proof (Base64Facts.atob_btoa (string_of_list_byte buf)) as Hd.
  unfold Base64Defs.comma in Hc.
  intros [[-> Hne] | (header & Hh & ->)]; unfold Base64.encode_bytes.
  - split.
    + unfold base64ToBlob. rewrite Hc, Hd.
      now rewrite list_byte_of_string_of_list_byte.
    + destruct buf as [|x [|y [|z l]]]; [congruence | reflexivity ..].
  - change ("," ++ Base64.btoa (string_of_list_byte buf))
      with (String ","%char (Base64.btoa (string_of_list_byte buf))).
    split.
    + unfold base64ToBlob.
      rewrite StrFacts.includes_char_app_sep.
      rewrite StrFacts.split_char_app_sep by exact Hh.
      rewrite StrFacts.split_char_none by exact Hc.
      cbn [List.nth_error]. rewrite Hd.
      now rewrite list_byte_of_string_of_list_byte.
    + destruct header; reflexivity.
Qed.

(** What is shown once a handler has run on a reply that its [try]
    block accepts. *)
Lemma display_after_success
  (st : State) (blob : Blob) (res : Response) (data : json) :
  succeeds (Ok res) = true ->
  bodyJson res = Ok data ->
  (let st' := exec (AgentUnified.sendAudio blob (Ok res)) st in
   markdown st' = reply_markdown data (markdown st)
   /\ displayed_audio st' = reply_audio data)
  /\ (let st' := exec (AgentAudio.sendAudio blob (Ok res)) st in
      markdown st' = reply_markdown data (markdown st)
      /\ displayed_audio st' = reply_audio data)
  /\ (Str.blank (textQuery st) = false ->
      let st' := exec (AgentUnified.sendText (Ok res)) st in
      markdown st' = reply_markdown data (markdown st)
      /\ displayed_audio st' = reply_audio data).
Proof.
  intros H Hbody. split; [|split].
  - unfold AgentUnified.sendAudio, AgentUnified.sendAudio_begin,
      AgentUnified.exchange_settle.
    run.
    match goal with
    | |- context [AgentUnified.exchange_try (Ok res) ?s] =>
        destruct (try_display res data s H Hbody eq_refl)
          as [(Ho & Hm & Ha & _) _];
        unfold exec, outcome in Ho, Hm, Ha;
        destruct (AgentUnified.exchange_try (Ok res) s) as [r s1]
    end.
    cbn [fst snd] in *. subst r. unfold displayed_audio in *. run.
    split; assumption.
  - unfold AgentAudio.sendAudio, AgentAudio.sendAudio_begin,
      AgentAudio.sendAudio_settle.
    run. destruct (Str.truthy (audioUrl st)); run;
    match goal with
    | |- context [AgentAudio.sendAudio_try (Ok res) ?s] =>
        destruct (try_display res data s H Hbody eq_refl)
          as [_ (Ho & Hm & Ha & _)];
        unfold exec, outcome in Ho, Hm, Ha;
        destruct (AgentAudio.sendAudio_try (Ok res) s) as [r s1]
    end;
    cbn [fst snd] in *; subst r; unfold displayed_audio in *; run;
    split; assumption.
  - intro Hq. unfold exec. rewrite (sendText_not_blank st (Ok res) Hq).
    unfold AgentUnified.exchange_settle.
    run.
    match goal with
    | |- context [AgentUnified.exchange_try (Ok res) ?s] =>
        destruct (try_display res data s H Hbody eq_refl)
          as [(Ho & Hm & Ha & _) _];
        unfold exec, outcome in Ho, Hm, Ha;
        destruct (AgentUnified.exchange_try (Ok res) s) as [r s1]
    end.
    cbn [fst snd] in *. subst r. unfold displayed_audio in *. run.
    split; assumption.
Qed.

(** X11.  When a successful reply is an object whose [audio_b64] carries
    a byte buffer, as base64 or as a data URI, the clip shown afterwards
    holds exactly those bytes, whatever else the reply holds.  Its type
    is the [mime] of the reply, lower-cased, and [audio/mpeg] when the
    reply has none. *)
Theorem reply_clip_shown
  (st : State) (blob : Blob) (res : Response)
  (fields : list (string * json)) (audio : string) (buf : list byte) :
  ok res = true ->
  bodyJson res = Ok (JObj fields) ->
  Json.lookup "audio_b64" fields = Some (JStr audio) ->
  carries audio buf ->
  let shown :=
    Some (Blobs.of_bytes buf (string_or (Json.lookup "mime" fields) "audio/mpeg")) in
  displayed_audio (exec (AgentUnified.sendAudio blob (Ok res)) st) = shown
  /\ displayed_audio (exec (AgentAudio.sendAudio blob (Ok res)) st) = shown
  /\ (Str.blank (textQuery st) = false ->
      displayed_audio (exec (AgentUnified.sendText (Ok res)) st) = shown)
  /\ (Json.lookup "mime" fields = None ->
      shown = Some {| blob_bytes := buf; blob_type := "audio/mpeg" |}).
Proof.
  intros Hok Hbody Haudio Hc shown. subst shown.
  destruct (base64ToBlob_carried audio buf
              (string_or (Json.lookup "mime" fields) "audio/mpeg") Hc)
    as [Hdec Htruthy].
  assert (Hra : reply_audio (JObj fields)
                = Some (Blobs.of_bytes buf
                          (string_or (Json.lookup "mime" fields) "audio/mpeg"))).
  { unfold reply_audio. cbn [prop_opt]. rewrite Haudio.
    cbn [Json.truthy base64ToBlob_any]. now rewrite Htruthy, Hdec. }
  assert (Hs : succeeds (Ok res) = true).
  { unfold succeeds, AgentUnified.exchange_try, AgentUnified.handleBackendJson.
    run. rewrite Hbody. run. rewrite Hok. cbn [prop]. run.
    rewrite Haudio. cbn [Json.truthy]. rewrite Htruthy.
    cbn [base64ToBlob_any]. rewrite Hdec.
    destruct (Json.lookup "text" fields) as [t|]; run;
      try destruct (Json.truthy t); run; reflexivity. }
  destruct (display_after_success st blob res (JObj fields) Hs Hbody)
    as ((_ & H1) & (_ & H2) & H3).
  cbv zeta in *. rewrite <- Hra.
  repeat split; try assumption.
  - intro Hq. now apply H3.
  - intro Hm. rewrite Hra, Hm. reflexivity.
Qed.

Lemma reply_clip_shown_witness :
  displayed_audio (exec (AgentAudio.sendAudio clip (Ok reply_speech)) running_session)
  = Some {| blob_bytes := id3_bytes; blob_type := "audio/mp3" |}.
Proof.
  assert (Hc : carries "data:audio/mpeg;base64,SUQzBAA=" id3_bytes).
  { right. exists "data:audio/mpeg;base64". split; reflexivity. }
  exact (proj1 (proj2 (reply_clip_shown running_session clip reply_speech
                         [("text", JStr "No events");
                          ("audio_b64", JStr "data:audio/mpeg;base64,SUQzBAA=");
                          ("mime", JStr "Audio/MP3")]
                         "data:audio/mpeg;base64,SUQzBAA=" id3_bytes
                         eq_refl eq_refl eq_refl Hc))).
Defined.

(** ** Object URLs *)

Lemma remove_url_single (u : string) (b : Blob) : remove_url u [(u, b)] = [].
Proof. unfold remove_url. simpl. now rewrite String.eqb_refl. Qed.

(** X12.  The voice-only [sendAudio] keeps the page tidy: if at most one
    object URL is live and it is the one of the clip shown, the same
    holds after the attempt, whatever the backend answers.  The URL of
    the clip shown before is revoked before the request leaves. *)
Theorem voice_sendAudio_tidy (st : State) (blob : Blob) (net : result Response) :
  tidy st ->
  tidy (exec (AgentAudio.sendAudio blob net) st)
  /\ objectUrls (exec (AgentAudio.sendAudio_begin blob) st) = [].
Proof.
  unfold tidy. intro H.
  unfold AgentAudio.sendAudio, AgentAudio.sendAudio_begin,
    AgentAudio.sendAudio_settle, AgentAudio.sendAudio_try.
  destruct (objectUrls st) as [|[u b] [|p l]] eqn:Eu; [| |contradiction].
  - run. rewrite H. run. rewrite ?Eu.
    split; [|reflexivity].
    destruct net as [res|e]; run; [|reflexivity].
    destruct (bodyJson res) as [data|e]; run; [|reflexivity].
    destruct (ok res); run; [|reflexivity].
    destruct data as [| bb | n | str | items | fields]; cbn [prop];
      run; try reflexivity.
    reply_cases; try reflexivity; split; reflexivity.
  - destruct H as [Hu Ht]. run. rewrite <- Hu, Ht. run.
    rewrite ?Eu, ?remove_url_single.
    split; [|reflexivity].
    destruct net as [res|e]; run; [|reflexivity].
    destruct (bodyJson res) as [data|e]; run; [|reflexivity].
    destruct (ok res); run; [|reflexivity].
    destruct data as [| bb | n | str | items | fields]; cbn [prop];
      run; try reflexivity.
    reply_cases; try reflexivity; split; reflexivity.
Qed.

Lemma voice_sendAudio_tidy_witness :
  tidy (exec (AgentAudio.sendAudio clip (Ok reply_speech)) showing_reply).
Proof.
  apply (voice_sendAudio_tidy showing_reply clip (Ok reply_speech)).
  split; reflexivity.
Defined.

(** X13.  The unified component never revokes an object URL: after
    [sendAudio] or [sendText] every URL that was live is still live,
    before them at most one new URL, and only that new URL can be the
    one shown.  The URL of the clip shown before the attempt stays live
    although the clip is no longer shown. *)
Theorem unified_never_revokes (st : State) (blob : Blob) (net : result Response) :
  (let st' := exec (AgentUnified.sendAudio blob net) st in
   (objectUrls st' = objectUrls st /\ audioUrl st' = EmptyString)
   \/ (exists b, objectUrls st' = (url_of (nextUrl st), b) :: objectUrls st
                 /\ audioUrl st' = url_of (nextUrl st)))
  /\ (let st' := exec (AgentUnified.sendText net) st in
      (objectUrls st' = objectUrls st
       /\ (audioUrl st' = EmptyString \/ audioUrl st' = audioUrl st))
      \/ (exists b, objectUrls st' = (url_of (nextUrl st), b) :: objectUrls st
                    /\ audioUrl st' = url_of (nextUrl st))).
Proof.
  assert (Hsettle : forall s, audioUrl s = EmptyString ->
            let s' := exec (AgentUnified.exchange_settle net) s in
            (objectUrls s' = objectUrls s /\ audioUrl s' = EmptyString)
            \/ (exists b, objectUrls s' = (url_of (nextUrl s), b) :: objectUrls s
                          /\ audioUrl s' = url_of (nextUrl s))).
  { intros s Hs. cbv zeta.
    unfold AgentUnified.exchange_settle, AgentUnified.exchange_try,
      AgentUnified.handleBackendJson.
    destruct net as [res|e]; run; [|left; split; [reflexivity | exact Hs]].
    destruct (bodyJson res) as [data|e]; run;
      [|left; split; [reflexivity | exact Hs]].
    destruct (ok res); run; [|left; split; [reflexivity | exact Hs]].
    destruct data as [| bb | n | str | items | fields]; cbn [prop];
      run; try (left; split; [reflexivity | exact Hs]).
    reply_cases;
      repeat match goal with
             | H : Str.truthy (audioUrl s) = _ |- _ =>
                 rewrite Hs in H; try discriminate H; clear H
             end;
      rewrite ?Hs; run;
      try (left; split; [reflexivity | assumption || reflexivity]);
      right; eexists; split; reflexivity. }
  split; cbv zeta.
  - unfold AgentUnified.sendAudio, AgentUnified.sendAudio_begin.
    run.
    match goal with
    | |- context [AgentUnified.exchange_settle net ?s] =>
        destruct (Hsettle s eq_refl) as [[H1 H2] | (b & H1 & H2)];
          unfold exec in H1, H2;
          cbn [objectUrls nextUrl] in H1, H2
    end.
    + left. split; assumption.
    + right. exists b. split; assumption.
  - destruct (Str.blank (textQuery st)) eqn:Hq.
    + unfold exec. rewrite (sendText_blank st net Hq). run.
      left. split; [reflexivity | right; reflexivity].
    + unfold exec. rewrite (sendText_not_blank st net Hq). run.
      match goal with
      | |- context [AgentUnified.exchange_settle net ?s] =>
          destruct (Hsettle s eq_refl) as [[H1 H2] | (b & H1 & H2)];
            unfold exec in H1, H2;
            cbn [objectUrls nextUrl] in H1, H2
      end.
      * left. split; [assumption | left; assumption].
      * right. exists b. split; assumption.
Qed.

(** ** The text-only component *)

Ltac improved_cases net :=
  unfold AgentImproved.fetchEvents, AgentImproved.fetchEvents_try;
  destruct net as [?res|?e]; run_improved;
  try match goal with
      | |- context [Str.includes "application/json" ?c] =>
          destruct (Str.includes "application/json" c) eqn:?; run_improved
      end;
  try match goal with
      | |- context [bodyJson ?r] =>
          destruct (bodyJson r) as [?data|?e] eqn:?; run_improved
      end;
  try match goal with
      | |- context [AgentImproved.resolve_text ?d] =>
          destruct (AgentImproved.resolve_text d) as [?text|?e] eqn:?;
          run_improved
      end;
  try match goal with
      | |- context [ok ?r] => destruct (ok r) eqn:?; run_improved
      end.

(** X14.  [fetchEvents] always ends with the loading flag down, the
    typed text untouched and exactly one more toast.  Either the toast
    is the success toast, or it is an error toast and the summary is
    empty: a failed attempt wipes the summary that was shown. *)
Theorem fetchEvents_ends (ist : AgentImproved.State) (net : result Response) :
  let ist' := exec (AgentImproved.fetchEvents net) ist in
  AgentImproved.isLoading ist' = false
  /\ AgentImproved.input ist' = AgentImproved.input ist
  /\ (toasts (AgentImproved.log ist')
      = (toasts (AgentImproved.log ist)
         ++ [(ToastSuccess, "Calendar events retrieved successfully")])%list
      \/ (AgentImproved.markdown ist' = JStr EmptyString
          /\ exists m, toasts (AgentImproved.log ist')
                       = (toasts (AgentImproved.log ist)
                          ++ [(ToastError, m)])%list)).
Proof.
  cbv zeta. improved_cases net;
    repeat rewrite toasts_app; cbn [toasts]; rewrite ?app_nil_r;
    repeat split;
    first [ left; reflexivity
          | right; split; [reflexivity | eexists; reflexivity] ].
Qed.

(** X15.  A successful reply that does not declare JSON content is shown
    as it is: the summary is the raw text of the body. *)
Theorem fetchEvents_plain_body (ist : AgentImproved.State) (res : Response) :
  ok res = true ->
  declares_json res = false ->
  AgentImproved.markdown (exec (AgentImproved.fetchEvents (Ok res)) ist)
  = JStr (bodyText res).
Proof.
  intros Hok Hct. unfold declares_json in Hct.
  unfold AgentImproved.fetchEvents, AgentImproved.fetchEvents_try.
  run_improved. rewrite Hct. run_improved. rewrite Hok. reflexivity.
Qed.

Lemma fetchEvents_plain_body_witness :
  AgentImproved.markdown
    (exec (AgentImproved.fetchEvents (Ok (plain_reply 200 "OK" "# Today")))
       improved_showing)
  = JStr "# Today".
Proof.
  exact (fetchEvents_plain_body improved_showing (plain_reply 200 "OK" "# Today")
           eq_refl eq_refl).
Defined.





Lemma handleSubmit_not_blank (ist : AgentImproved.State) (net : result Response) :
  Str.blank (AgentImproved.input ist) = false ->
  AgentImproved.handleSubmit net ist
  = (AgentImproved.emit EvPreventDefault ;; AgentImproved.fetchEvents net) ist.
Proof.
  intro H. unfold AgentImproved.handleSubmit.
  unfold bind at 1 3. cbn [AgentImproved.emit modify].
  unfold bind at 1. unfold gets. cbn [AgentImproved.input].
  now rewrite (StrFacts.trim_not_blank _ H).
Qed.

(** X18.  Submitting the form always cancels the browser's own
    submission first, and then sends the typed text in one request
    exactly when the text is not blank. *)
Theorem handleSubmit_requests (ist : AgentImproved.State) (net : result Response) :
  let ist' := exec (AgentImproved.handleSubmit net) ist in
  fetches (AgentImproved.log ist')
  = (fetches (AgentImproved.log ist)
     ++ (if Str.blank (AgentImproved.input ist) then []
         else [query_request (AgentImproved.input ist)]))%list
  /\ exists rest,
       AgentImproved.log ist'
       = (AgentImproved.log ist ++ EvPreventDefault :: rest)%list.
Proof.
  cbv zeta. destruct (Str.blank (AgentImproved.input ist)) eqn:Hq.
  - unfold exec. rewrite (handleSubmit_blank ist net Hq). run_improved.
    split.
    + repeat rewrite fetches_app. cbn [fetches]. now rewrite !app_nil_r.
    + rewrite <- app_assoc. eexists. reflexivity.
  - unfold exec. rewrite (handleSubmit_not_blank ist net Hq).
    unfold bind. cbn [AgentImproved.emit modify].
    match goal with
    | |- context [AgentImproved.fetchEvents net ?s] =>
        pose proof (fetchEvents_requests s net) as Hf;
        unfold exec in Hf; cbn [AgentImproved.log AgentImproved.input] in Hf
    end.
    split.
    + rewrite Hf. rewrite fetches_app. cbn [fetches]. now rewrite app_nil_r.
    + clear Hf. improved_cases net; repeat rewrite <- app_assoc;
        eexists; reflexivity.
Qed.

(** ** More on [base64ToBlob] *)

(** X19.  [base64ToBlob] decodes what stands between the first comma and
    the second: what comes before the first comma is never looked at,
    and neither is what follows a second one. *)
Theorem base64ToBlob_data_part (header data rest mime : string) :
  Str.includes_char ","%char header = false ->
  Str.includes_char ","%char data = false ->
  base64ToBlob (header ++ "," ++ data) mime = base64ToBlob data mime
  /\ base64ToBlob (header ++ "," ++ data ++ "," ++ rest) mime
     = base64ToBlob data mime.
Proof.
  intros Hh Hd.
  change ("," ++ data) with (String ","%char data).
  change ("," ++ data ++ "," ++ rest)
    with (String ","%char (data ++ String ","%char rest)).
  unfold base64ToBlob. rewrite Hd.
  rewrite !StrFacts.includes_char_app_sep.
  rewrite !StrFacts.split_char_app_sep by assumption.
  rewrite StrFacts.split_char_none by assumption.
  split; reflexivity.
Qed.

Lemma base64ToBlob_data_part_witness :
  base64ToBlob "data:audio/mpeg;base64,SUQz,AAAA" "audio/mpeg"
  = Ok {| blob_bytes := [x49; x44; x33]; blob_type := "audio/mpeg" |}.
Proof.
  exact (proj2 (base64ToBlob_data_part "data:audio/mpeg;base64" "SUQz" "AAAA"
                  "audio/mpeg" eq_refl eq_refl)).
Defined.

Lemma sextets_foreign (d : list ascii) (c : ascii) :
  In c d -> Base64.char_sextet c = None -> Base64.sextets d = None.
Proof.
  induction d as [|x d IH]; simpl; intros Hin Hc.
  - contradiction.
  - destruct Hin as [-> | Hin].
    + now rewrite Hc.
    + rewrite (IH Hin Hc). now destruct (Base64.char_sextet x).
Qed.

Lemma strip_padding_keeps (d : list ascii) (c : ascii) :
  In c d -> Ascii.eqb c Base64.pad = false -> In c (Base64.strip_padding d).
Proof.
  intros Hin Hc. unfold Base64.strip_padding.
  assert (Hrev : In c (List.rev d)) by now apply in_rev in Hin.
  destruct (List.rev d) as [|p [|q r]] eqn:E.
  - exact Hin.
  - destruct (Ascii.eqb p Base64.pad) eqn:Ep; [|exact Hin].
    destruct Hrev as [-> | []]. congruence.
  - destruct (Ascii.eqb p Base64.pad) eqn:Ep; [|exact Hin].
    destruct Hrev as [-> | Hrev]; [congruence|].
    destruct (Ascii.eqb q Base64.pad) eqn:Eq.
    + destruct Hrev as [-> | Hrev]; [congruence|].
      now apply in_rev in Hrev.
    + now apply in_rev in Hrev.
Qed.

Lemma has_foreign_In (s : string) :
  has_foreign s = true ->
  exists c, In c (list_ascii_of_string s) /\ foreign c = true.
Proof.
  induction s as [|a s IH]; simpl; intro H.
  - discriminate.
  - apply orb_true_iff in H. destruct H as [H | H].
    + exists a. auto.
    + destruct (IH H) as (c & Hin & Hc). exists c. auto.
Qed.

(** X20.  Text that holds a character base64 cannot hold (outside the
    alphabet, not [=], not white space) and no comma makes
    [base64ToBlob] throw; no blob is made of a part of it. *)
Theorem base64ToBlob_foreign (base64 mime : string) :
  Str.includes_char ","%char base64 = false ->
  has_foreign base64 = true ->
  base64ToBlob base64 mime = Throw InvalidCharacterError.
Proof.
  intros Hc Hf. unfold base64ToBlob. rewrite Hc.
  destruct (has_foreign_In base64 Hf) as (c & Hin & Hfc).
  unfold foreign in Hfc.
  apply andb_prop in Hfc. destruct Hfc as [Hfc Hws].
  apply andb_prop in Hfc. destruct Hfc as [Hsx Hpad].
  apply negb_true_iff in Hws, Hpad.
  assert (Hnone : Base64.char_sextet c = None)
    by (destruct (Base64.char_sextet c); [discriminate | reflexivity]).
  assert (Hd : Base64.decode (list_ascii_of_string base64) = None).
  { unfold Base64.decode.
    set (d1 := List.filter (fun x => negb (Base64.is_ascii_whitespace x))
                 (list_ascii_of_string base64)).
    assert (Hin1 : In c d1).
    { apply filter_In. split; [exact Hin | now rewrite Hws]. }
    set (d2 := if (N.of_nat (List.length d1) mod 4 =? 0)%N
               then Base64.strip_padding d1 else d1).
    assert (Hin2 : In c d2).
    { unfold d2. destruct (N.of_nat (List.length d1) mod 4 =? 0)%N;
        [now apply strip_padding_keeps | exact Hin1]. }
    destruct (N.of_nat (List.length d2) mod 4 =? 1)%N; [reflexivity|].
    now rewrite (sextets_foreign d2 c Hin2 Hnone). }
  unfold Base64.atob. now rewrite Hd.
Qed.

Lemma base64ToBlob_foreign_witness :
  base64ToBlob "SUQz-AAA" "audio/mpeg" = Throw InvalidCharacterError.
Proof.
  exact (base64ToBlob_foreign "SUQz-AAA" "audio/mpeg" eq_refl eq_refl).
Defined.

Lemma filter_idem (A : Type) (f : A -> bool) (l : list A) :
  List.filter f (List.filter f l) = List.filter f l.
Proof.
  induction l as [|x l IH]; simpl.
  - reflexivity.
  - destruct (f x) eqn:E; simpl; [rewrite E|]; now rewrite IH.
Qed.

Lemma includes_char_filter (c : ascii) (f : ascii -> bool) (s : string) :
  Str.includes_char c s = false ->
  Str.includes_char c (string_of_list_ascii (List.filter f (list_ascii_of_string s)))
  = false.
Proof.
  induction s as [|a s IH]; simpl; intro H.
  - reflexivity.
  - destruct (Ascii.eqb a c) eqn:E; [discriminate|].
    destruct (f a); simpl; [rewrite E|]; now apply IH.
Qed.

(** X21.  White space between the characters of the base64 text does not
    matter: text that holds no comma decodes as the same text without
    its spaces, tabs and line breaks does.  So base64 broken into lines
    gives the bytes that were encoded. *)
Theorem base64ToBlob_whitespace (base64 mime : string) (buf : list byte) :
  Str.includes_char ","%char base64 = false ->
  base64ToBlob base64 mime = base64ToBlob (without_whitespace base64) mime
  /\ (without_whitespace base64 = Base64.encode_bytes buf ->
      base64ToBlob base64 mime = Ok (Blobs.of_bytes buf mime)).
Proof.
  intro Hc.
  assert (E : base64ToBlob base64 mime
              = base64ToBlob (without_whitespace base64) mime).
  { unfold base64ToBlob, without_whitespace.
    rewrite Hc, (includes_char_filter _ _ _ Hc).
    unfold Base64.atob, Base64.decode.
    rewrite list_ascii_of_string_of_list_ascii, filter_idem. reflexivity. }
  split; [exact E|].
  intro Hb. rewrite E, Hb.
  unfold base64ToBlob, Base64.encode_bytes.
  rewrite Base64Facts.btoa_no_comma, Base64Facts.atob_btoa.
  now rewrite list_byte_of_string_of_list_byte.
Qed.

Lemma base64ToBlob_whitespace_witness :
  base64ToBlob "SUQz BAA= " "audio/mpeg"
  = Ok {| blob_bytes := id3_bytes; blob_type := "audio/mpeg" |}.
Proof.
  exact (proj2 (base64ToBlob_whitespace "SUQz BAA= " "audio/mpeg" id3_bytes eq_refl)
           eq_refl).
Defined.

(** ** A whole recording *)

Lemma size_single (data : Blob) (t : string) :
  Blobs.size (Blobs.make [data] t) = Blobs.size data.
Proof.
  unfold Blobs.size, Blobs.make. cbn. now rewrite app_nil_r.
Qed.

(** X22.  A recording uploads what it recorded and nothing else: when
    [startRecording] succeeds and the recording is then stopped with
    bytes recorded, the request carries exactly those bytes, under the
    type chosen at the start, even if chunks of an earlier recording
    were still held when it started. *)
Theorem recording_uploads_own_bytes
  (env : Env) (st : State) (stream : list track_state)
  (data : Blob) (net : result Response) :
  hasGetUserMedia env = true ->
  is_denied (queryMicPermission env) = false ->
  getUserMedia env = Ok stream ->
  recorderConstructor env = None ->
  recorderStart env = None ->
  Blobs.size data <> 0%N ->
  let upload :=
    {| blob_bytes := blob_bytes data;
       blob_type := Blobs.normalize_type
                      (if opusSupported env
                       then "audio/webm;codecs=opus" else "audio/webm") |} in
  (isSecureContextOrLocal env = true ->
   fetches (log (exec (AgentAudio.startRecording env ;;
                       AgentAudio.stopRecording data net) st))
   = (fetches (log st) ++ [audio_request upload])%list)
  /\ fetches (log (exec (AgentUnified.startRecording env ;;
                         AgentUnified.stopRecording data net) st))
     = (fetches (log st) ++ [audio_request upload])%list.
Proof.
  intros Hg Hd Hs Hc Hr Hdata upload. subst upload.
  assert (Hz : (Blobs.size data =? 0)%N = false) by now apply N.eqb_neq.
  assert (Hz1 : forall t, (Blobs.size (Blobs.make [data] t) =? 0)%N = false)
    by (intro t; now rewrite size_single).
  split; [intro Hsec|];
    unfold AgentAudio.startRecording, AgentUnified.startRecording, open_recorder,
      AgentAudio.stopRecording, AgentUnified.stopRecording,
      AgentAudio.onstop, AgentUnified.onstop,
      AgentAudio.sendAudio_begin, AgentUnified.sendAudio_begin, ondataavailable;
    rewrite ?Hsec, Hg, Hd; run; rewrite Hs; run; rewrite Hc; run;
    rewrite Hr; run; cbn [with_state rec_state rec_mimeType app];
    rewrite Hz; run; cbn [app rec_mimeType]; rewrite Hz1; run;
    try (destruct (Str.truthy (audioUrl st)); run);
    settled net; rewrite Hf;
    repeat rewrite fetches_app; cbn [fetches]; rewrite ?app_nil_r;
    unfold Blobs.make; cbn [List.map List.concat]; rewrite app_nil_r;
    reflexivity.
Qed.

Lemma recording_uploads_own_bytes_witness :
  fetches (log (exec (AgentUnified.startRecording good_env ;;
                      AgentUnified.stopRecording speech (Ok reply_full))
                  running_session))
  = [audio_request {| blob_bytes := id3_bytes; blob_type := "audio/webm" |}].
Proof.
  assert (Hsize : Blobs.size speech <> 0%N) by discriminate.
  exact (proj2 (recording_uploads_own_bytes good_env running_session [Live]
                  speech (Ok reply_full)
                  eq_refl eq_refl eq_refl eq_refl eq_refl Hsize)).
Defined.

(** ** What is on the page *)

(** X23.  When [fetchEvents] has finished, the page of the text-only
    component shows no loading card and exactly one of the summary card
    and the examples card; the field is enabled again.  The summary card
    is on the page only after the success toast: a failed attempt brings
    the examples back. *)
Theorem fetchEvents_page (ist : AgentImproved.State) (net : result Response) :
  let ist' := exec (AgentImproved.fetchEvents net) ist in
  let page := AgentImprovedView.render ist' in
  AgentImprovedView.loading_card page = false
  /\ AgentImprovedView.input_disabled page = false
  /\ AgentImprovedView.submit_label page = "Get Events"
  /\ AgentImprovedView.markdown_card page
     = negb (AgentImprovedView.examples_card page)
  /\ (AgentImprovedView.markdown_card page = true ->
      toasts (AgentImproved.log ist')
      = (toasts (AgentImproved.log ist)
         ++ [(ToastSuccess, "Calendar events retrieved successfully")])%list).
Proof.
  cbv zeta. unfold AgentImprovedView.render.
  cbn [AgentImprovedView.loading_card AgentImprovedView.input_disabled
       AgentImprovedView.submit_label AgentImprovedView.markdown_card
       AgentImprovedView.examples_card].
  improved_cases net;
    repeat rewrite toasts_app; cbn [toasts negb andb Json.truthy Str.truthy];
    rewrite ?app_nil_r;
    repeat split; try reflexivity; try discriminate;
    try (intros _; reflexivity).
  all: now rewrite negb_involutive.
Qed.

Lemma fetchEvents_page_witness :
  toasts (AgentImproved.log
            (exec (AgentImproved.fetchEvents (Ok (plain_reply 200 "OK" "# Today")))
               improved_showing))
  = [(ToastSuccess, "Calendar events retrieved successfully")].
Proof.
  pose proof (fetchEvents_page improved_showing
                (Ok (plain_reply 200 "OK" "# Today"))) as H.
  cbv zeta in H. destruct H as (_ & _ & _ & _ & H).
  apply H. reflexivity.
Defined.

Lemma truthy_trim_not_blank (q : string) :
  Str.truthy (Str.trim q) = true -> Str.blank q = false.
Proof.
  intro H. destruct (Str.blank q) eqn:E; [|reflexivity].
  rewrite (StrFacts.trim_blank q E) in H. discriminate H.
Qed.

(** X24.  In the unified component a click on Send issues the request of
    the typed text exactly when the button is enabled, and does nothing
    at all when it is disabled.  The Enter key reaches [sendText] also
    when the button is disabled for a blank text: it then shows the
    error toast and sends nothing. *)
Theorem send_button (st : State) (net : result Response) :
  let enabled := negb (AgentUnifiedView.send_disabled (AgentUnifiedView.render st)) in
  fetches (log (exec (AgentUnifiedView.click_send net) st))
  = (fetches (log st)
     ++ (if enabled then [query_request (textQuery st)] else []))%list
  /\ (enabled = false -> exec (AgentUnifiedView.click_send net) st = st)
  /\ (isLoading st = false -> Str.blank (textQuery st) = true ->
      toasts (log (exec (AgentUnifiedView.press_enter net) st))
      = (toasts (log st) ++ [(ToastError, "Please enter a request.")])%list
      /\ fetches (log (exec (AgentUnifiedView.press_enter net) st))
         = fetches (log st)).
Proof.
  cbv zeta.
  unfold AgentUnifiedView.click_send, AgentUnifiedView.press_enter,
    AgentUnifiedView.render.
  cbn [AgentUnifiedView.send_disabled AgentUnifiedView.input_disabled].
  split; [|split].
  - unfold exec.
    destruct (isLoading st); cbn [orb negb snd].
    + now rewrite app_nil_r.
    + destruct (Str.truthy (Str.trim (textQuery st))) eqn:Hq; cbn [negb snd].
      * apply truthy_trim_not_blank in Hq.
        rewrite (sendText_not_blank st net Hq). run.
        settled net. rewrite Hf. rewrite fetches_app. reflexivity.
      * now rewrite app_nil_r.
  - intro H. apply negb_false_iff in H. unfold exec. now rewrite H.
  - intros Hl Hq. unfold exec. rewrite Hl.
    rewrite (sendText_blank st net Hq). run.
    rewrite toasts_app, fetches_app. cbn [toasts fetches].
    rewrite app_nil_r. split; reflexivity.
Qed.

Lemma send_button_witness :
  exec (AgentUnifiedView.click_send (Ok reply_full)) showing_reply_blank_query
  = showing_reply_blank_query
  /\ toasts (log (exec (AgentUnifiedView.press_enter (Ok reply_full))
                    showing_reply_blank_query))
     = [(ToastError, "Please enter a request.")].
Proof.
  pose proof (send_button showing_reply_blank_query (Ok reply_full)) as H.
  cbv zeta in H. destruct H as (_ & Hc & He).
  split.
  - apply Hc. reflexivity.
  - apply (proj1 (He eq_refl eq_refl)).
Defined.

(** ** The body of a text request *)

(** X25.  The body of a text request can be read back: after the opening
    of the object and of its one field it is a JSON string literal that
    denotes the typed text, code unit for code unit, followed by the
    closing brace.  So two different texts never leave in the same
    body. *)
Theorem query_body_reads_back (q q' : string) :
  (exists literal,
     req_body (query_request q)
     = TextBody ("{" ++ Json.quote "query" ++ ":" ++ Json.dquote ++ literal)
     /\ JsonRead.read_string literal = Some (q, "}"))
  /\ (q <> q' -> req_body (query_request q) <> req_body (query_request q')).
Proof.
  split.
  - exists (Json.quote_body q ++ Json.dquote ++ "}"). split.
    + unfold query_request, req_body. now rewrite stringify_query.
    + apply read_quote_body.
  - intros Hne Heq. apply Hne.
    unfold query_request, req_body in Heq.
    rewrite !stringify_query in Heq.
    apply (f_equal (fun b => match b with
                             | TextBody t => t
                             | FormBody _ => EmptyString
                             end)) in Heq.
    do 4 apply string_app_inv_head in Heq.
    apply (f_equal JsonRead.read_string) in Heq.
    rewrite !read_quote_body in Heq. now injection Heq.
Qed.

Lemma query_body_reads_back_witness :
  req_body (query_request "today") <> req_body (query_request "today ").
Proof.
  apply (proj2 (query_body_reads_back "today" "today ")).
  discriminate.
Defined.

(** ** Numbers in a reply *)

(** A number of a reply comes out as JavaScript prints it, and zero is
    falsy: the [error] 1e21 makes the message 1e+21, the [error] 0
    leaves the status text. *)
Example number_error_message :
  outcome (AgentUnified.exchange_try
             (Ok (json_reply 400 "Bad Request" (JObj [("error", JNum "1e+21")]))))
    initial
  = Throw (Error "1e+21")
  /\ outcome (AgentUnified.exchange_try
                (Ok (json_reply 400 "Bad Request" (JObj [("error", JNum "0")]))))
       initial
     = Throw (Error "Bad Request")
  /\ AgentImproved.resolve_text (JNum "1e+21") = Ok (JStr "1e+21")
  /\ AgentImproved.resolve_text (JObj [("result", JNum "1.5")])
     = Ok (JNum "1.5").
Proof. repeat split. Qed.
